(** * PDF table extractor: a shallow embedding of [pdf_table_extractor_improved.py]

    The development follows the pipeline of class [PDFTableExtractor]:
    [clean_text], [extract_text_with_positions], [detect_table_boundaries],
    [refine_tables], [clean_sheet_name], [to_excel] and the driver
    [process_pdf_files].

    A Python [str] is a sequence of Unicode code points; it is modelled as
    a list of [N].  Every natural number is accepted as a code point, a
    superset of what Python allows, so the theorems cover all real inputs. *)

From Stdlib Require Import String Ascii NArith ZArith Bool Lia List.
From Stdlib Require Import Numbers.DecimalString Numbers.DecimalPos Numbers.DecimalZ.
Import ListNotations.

Set Implicit Arguments.

(** ** Python strings *)

Definition pystr := list N.

(** A literal: the code points of an ASCII Rocq string. *)
Fixpoint py (s : string) : pystr :=
  match s with
  | EmptyString => []
  | String a r => N_of_ascii a :: py r
  end.

Module Text.

Local Open Scope N_scope.

Definition SPACE : N := 32.

(** The characters for which [str.isspace] holds.  [str.strip()] without
    argument and the class [\s] of a [str] pattern both use this set. *)
Definition is_space (c : N) : bool :=
  ((9 <=? c) && (c <=? 13))
  || ((28 <=? c) && (c <=? 32))
  || (c =? 0x85) || (c =? 0xA0) || (c =? 0x1680)
  || ((0x2000 <=? c) && (c <=? 0x200A))
  || (c =? 0x2028) || (c =? 0x2029) || (c =? 0x202F)
  || (c =? 0x205F) || (c =? 0x3000).

(** The class [[\x00-\x7F]]. *)
Definition is_ascii (c : N) : bool := c <=? 0x7F.

(** [re.sub(r'[^\x00-\x7F]+', ' ', text)]: scanning left to right, every
    maximal run of characters outside [\x00-\x7F] becomes one space.
    [in_run] tells that the previous character belonged to such a run,
    whose space has been written already. *)
Fixpoint sub_non_ascii (in_run : bool) (text : pystr) : pystr :=
  match text with
  | [] => []
  | c :: rest =>
      if is_ascii c then c :: sub_non_ascii false rest
      else if in_run then sub_non_ascii true rest
      else SPACE :: sub_non_ascii true rest
  end.

(** [text.replace(old, new)] for one-character [old] and [new]. *)
Definition replace_char (old new : N) (text : pystr) : pystr :=
  map (fun c => if c =? old then new else c) text.

Fixpoint lstrip (text : pystr) : pystr :=
  match text with
  | [] => []
  | c :: rest => if is_space c then lstrip rest else text
  end.

Definition rstrip (text : pystr) : pystr := rev (lstrip (rev text)).

(** [text.strip()] *)
Definition strip (text : pystr) : pystr := rstrip (lstrip text).

(** The value of [text] in [clean_text] just before [return text.strip()]. *)
Definition replaced (text : pystr) : pystr :=
  replace_char 0xFF SPACE (replace_char 0 SPACE (sub_non_ascii false text)).

Definition clean_text (text : pystr) : pystr := strip (replaced text).

(** Observations on strings used in the statements. *)

(** A character the normalizer can return: seven bits and not null. *)
Definition clean_char (c : N) : Prop := 1 <= c <= 0x7F.

Definition leading_space (text : pystr) : bool :=
  match text with
  | [] => false
  | c :: _ => is_space c
  end.

Definition trailing_space (text : pystr) : bool := leading_space (rev text).

(** The printable ASCII range, space to tilde. *)
Definition is_printable (c : N) : bool := (32 <=? c) && (c <=? 126).

(** What the regular expression consumes after the first character of a
    match: the rest of the run. *)
Fixpoint drop_run (text : pystr) : pystr :=
  match text with
  | [] => []
  | c :: rest => if is_ascii c then text else drop_run rest
  end.

(** The replacement read character by character: a null or a character
    above [0x7F] gives a space, any other character is kept. *)
Definition subst (c : N) : N :=
  if (c =? 0) || negb (is_ascii c) then SPACE else c.

(** Keeps the first character of every run of characters above [0x7F]. *)
Fixpoint collapse_runs (in_run : bool) (text : pystr) : pystr :=
  match text with
  | [] => []
  | c :: rest =>
      if is_ascii c then c :: collapse_runs false rest
      else if in_run then collapse_runs true rest
      else c :: collapse_runs true rest
  end.

(** Claim C4 read word for word: every character outside the printable
    range replaced by one space, then the ends trimmed. *)
Definition normalize_printable (text : pystr) : pystr :=
  strip (map (fun c => if is_printable c then c else SPACE) text).

(** A character that leaves nothing behind when it stands alone:
    whitespace, the null character, or a character above [0x7F]. *)
Definition blank_char (c : N) : bool :=
  is_space c || (c =? 0) || negb (is_ascii c).

(** Two whitespace characters side by side somewhere in the text. *)
Fixpoint double_space (text : pystr) : bool :=
  match text with
  | [] => false
  | c :: rest =>
      (is_space c && leading_space rest) || double_space rest
  end.

(** A string with some content that [clean_text] has nothing to do on:
    not empty, made of the characters [\x01] to [\x7F], without whitespace
    at either end. *)
Definition solid (text : pystr) : Prop :=
  text <> []
  /\ Forall clean_char text
  /\ leading_space text = false
  /\ trailing_space text = false.

End Text.

(** ** Line structurer: [extract_text_with_positions] *)

Module Structurer.

Import Text.

(** One entry of [structured_lines]: the dictionary with keys ['text'],
    ['parts'], ['part_count'] and ['page']. *)
Record StructuredLine := {
  line_text : pystr;
  parts : list pystr;
  part_count : Z;
  line_page : Z
}.

(** [text.split('\n')]: one piece more than there are separators. *)
Fixpoint split_char (sep : N) (text : pystr) : list pystr :=
  match text with
  | [] => [[]]
  | c :: rest =>
      if N.eqb c sep then [] :: split_char sep rest
      else match split_char sep rest with
           | piece :: pieces => (c :: piece) :: pieces
           | [] => [[c]]
           end
  end.

Definition NEWLINE : N := 10%N.

(** [re.split(r'\s{2,}', line)].  [piece] holds the part being read and
    [gap] the run of whitespace met right after it; the run separates two
    parts when it has two characters or more, and belongs to the part
    otherwise. *)
Fixpoint re_split (piece gap : pystr) (line : pystr) : list pystr :=
  match line with
  | [] => if 2 <=? length gap then [piece; []] else [piece ++ gap]
  | c :: rest =>
      if is_space c then re_split piece (gap ++ [c]) rest
      else if 2 <=? length gap then piece :: re_split [c] [] rest
      else re_split (piece ++ gap ++ [c]) [] rest
  end.

Definition re_split_spaces (line : pystr) : list pystr := re_split [] [] line.

(** The body of [for line in lines], giving what it appends to
    [structured_lines]; [if parts:] tests that the list is not empty. *)
Definition structure_line (page_no : Z) (raw : pystr) : list StructuredLine :=
  let line := clean_text raw in
  let parts := re_split_spaces line in
  match parts with
  | [] => []
  | _ :: _ =>
      [ {| line_text := line;
           parts := parts;
           part_count := Z.of_nat (length parts);
           line_page := page_no |} ]
  end.

(** The loop over [enumerate(reader.pages)]; a page is given by the result
    of [page.extract_text()], and [if not text: continue] drops the pages
    without text, which still count in the numbering. *)
Fixpoint extract_pages (page_num : Z) (pages : list pystr)
  : list (list StructuredLine) :=
  match pages with
  | [] => []
  | text :: rest =>
      match text with
      | [] => extract_pages (page_num + 1) rest
      | _ :: _ =>
          let cleaned := clean_text text in
          let lines := split_char NEWLINE cleaned in
          flat_map (structure_line (page_num + 1)) lines
            :: extract_pages (page_num + 1) rest
      end
  end.

(** [None] stands for a document the reader fails on: the exception is
    caught and the result is the empty list. *)
Definition extract_text_with_positions (reader : option (list pystr))
  : list (list StructuredLine) :=
  match reader with
  | None => []
  | Some pages => extract_pages 0 pages
  end.

(** The lines built for one page text under the page number [page_no]. *)
Definition page_lines (page_no : Z) (text : pystr) : list StructuredLine :=
  flat_map (structure_line page_no) (split_char NEWLINE (clean_text text)).

(** What the structurer guarantees of a line it builds. *)
Definition line_ok (line : StructuredLine) : Prop :=
  part_count line = Z.of_nat (length (parts line))
  /\ (1 <= part_count line)%Z
  /\ clean_text (line_text line) = line_text line
  /\ (parts line = [[]] \/ Forall solid (parts line)).

(** The pages that pass [if not text: continue]. *)
Definition has_text (text : pystr) : bool :=
  match text with
  | [] => false
  | _ :: _ => true
  end.

End Structurer.

(** ** Table boundary detector: [detect_table_boundaries] *)

Module Detector.

Import Text Structurer.

(** The dictionary with keys ['page'], ['header'] and ['rows']. *)
Record CandidateTable := {
  table_page : Z;
  header : list pystr;
  rows : list (list pystr)
}.

(** The two variables of the loops: [tables] and [current_table], where
    [None] is Python's [None] (no active table) and [Some t] a table being
    built. *)
Definition state : Type := list CandidateTable * option CandidateTable.

Definition has_rows (t : CandidateTable) : bool := (1 <=? length (rows t))%nat.

(** The body of [for line in page_data]. *)
Definition process_line (st : state) (line : StructuredLine) : state :=
  let (tables, current_table) := st in
  if (1 <? part_count line)%Z then
    match current_table with
    | None =>
        let cleaned_header := map clean_text (parts line) in
        (tables, Some {| table_page := line_page line;
                         header := cleaned_header;
                         rows := [] |})
    | Some t =>
        if (part_count line =? Z.of_nat (length (header t)))%Z then
          let cleaned_row := map clean_text (parts line) in
          (tables, Some {| table_page := table_page t;
                           header := header t;
                           rows := rows t ++ [cleaned_row] |})
        else (tables, Some t)
    end
  else
    match current_table with
    | Some t => if has_rows t then (tables ++ [t], None) else (tables, None)
    | None => (tables, None)
    end.

(** The statement after the inner loop, run once per page. *)
Definition end_of_page (st : state) : state :=
  let (tables, current_table) := st in
  match current_table with
  | Some t => if has_rows t then (tables ++ [t], None) else (tables, Some t)
  | None => (tables, None)
  end.

Definition process_page (st : state) (page_data : list StructuredLine) : state :=
  end_of_page (fold_left process_line page_data st).

Definition detect_table_boundaries (pages_data : list (list StructuredLine))
  : list CandidateTable :=
  fst (fold_left process_page pages_data ([], None)).

(** Closing a table as the claims describe it: emitted when it has rows,
    dropped otherwise, and no table is active afterwards. *)
Definition close_table (tables : list CandidateTable) (t : CandidateTable)
  : state :=
  if has_rows t then (tables ++ [t], None) else (tables, None).

(** Claim C1 as the specification words it. *)
Definition mismatch_closes_table : Prop :=
  forall tables t line,
    (1 < part_count line)%Z ->
    part_count line <> Z.of_nat (length (header t)) ->
    process_line (tables, Some t) line = close_table tables t.

(** Claim C3 as the specification words it. *)
Definition page_end_resets : Prop :=
  forall tables t, end_of_page (tables, Some t) = close_table tables t.

(** The lines the structurer builds have [part_count = len(parts)]. *)
Definition well_formed (line : StructuredLine) : Prop :=
  part_count line = Z.of_nat (length (parts line)).

(** What claim C6 asks of an emitted table. *)
Definition emitted_ok (t : CandidateTable) : Prop :=
  (1 <= length (rows t))%nat
  /\ Forall (fun row => length row = length (header t)) (rows t).

(** The rows gathered so far all have the width of the header. *)
Definition rows_match (t : CandidateTable) : Prop :=
  Forall (fun row => length row = length (header t)) (rows t).

Definition state_ok (st : state) : Prop :=
  Forall emitted_ok (fst st)
  /\ match snd st with
     | Some t => rows_match t
     | None => True
     end.

(** The lines the table being built has taken so far: its header line and
    one line per row. *)
Definition lines_used (current_table : option CandidateTable) : nat :=
  match current_table with
  | Some t => 1 + length (rows t)
  | None => 0
  end.

(** Every cell of the table is left unchanged by [clean_text]. *)
Definition cells_clean (t : CandidateTable) : Prop :=
  Forall (fun cell => clean_text cell = cell) (header t)
  /\ Forall (Forall (fun cell => clean_text cell = cell)) (rows t).

(** A table as the detector emits it on the lines of the structurer: at
    least two columns, at least one row, rows of the width of the header,
    and no cell that is empty or that [clean_text] would change. *)
Definition table_solid (t : CandidateTable) : Prop :=
  (2 <= length (header t))%nat
  /\ Forall solid (header t)
  /\ Forall (Forall solid) (rows t).

(** Where a table comes from: its header is the cleaned parts of one of
    the [lines], a line of several parts whose page it carries, and each
    of its rows is the cleaned parts of one of the [lines] with as many
    parts as the header. *)
Definition built_from (lines : list StructuredLine) (t : CandidateTable) : Prop :=
  (exists line,
      In line lines
      /\ (1 < part_count line)%Z
      /\ table_page t = line_page line
      /\ header t = map clean_text (parts line))
  /\ Forall (fun row =>
               exists line,
                 In line lines
                 /\ part_count line = Z.of_nat (length (header t))
                 /\ row = map clean_text (parts line))
            (rows t).

(** The table made of a header line and of the lines that follow it. *)
Definition table_of (head_line : StructuredLine) (row_lines : list StructuredLine)
  : CandidateTable :=
  {| table_page := line_page head_line;
     header := map clean_text (parts head_line);
     rows := map (fun line => map clean_text (parts line)) row_lines |}.

(** [Q] holds of the emitted tables and of the table being built. *)
Definition all_tables (Q : CandidateTable -> Prop) (st : state) : Prop :=
  Forall Q (fst st)
  /\ match snd st with
     | Some t => Q t
     | None => True
     end.

End Detector.

(** ** Table refiner: [refine_tables] *)

Module Refiner.

Import Text Detector.

(** A cell of the data frame: a string, or the missing marker ([np.nan],
    and the [None] that pads a short row). *)
Inductive cell :=
| NaN
| Str (s : pystr).

(** The frame, row by row, under its column names. *)
Record DataFrame := {
  columns : list pystr;
  values : list (list cell)
}.

(** The dictionary with keys ['page'] and ['data']. *)
Record RefinedTable := {
  refined_page : Z;
  data : DataFrame
}.

Definition is_present (c : cell) : bool :=
  match c with
  | NaN => false
  | Str _ => true
  end.

Definition widest (rows : list (list pystr)) : nat :=
  fold_right (fun r w => Nat.max (length r) w) 0 rows.

Definition pad (w : nat) (r : list pystr) : list cell :=
  map Str r ++ repeat NaN (w - length r).

(** [pd.DataFrame(table['rows'], columns=table['header'])]: the rows are
    padded to the widest one, and the constructor raises when that width
    is not the number of column names. *)
Definition make_frame (rows : list (list pystr)) (header : list pystr)
  : option DataFrame :=
  match rows with
  | [] => Some {| columns := header; values := [] |}
  | _ :: _ =>
      if widest rows =? length header
      then Some {| columns := header; values := map (pad (widest rows)) rows |}
      else None
  end.

(** [df.replace('', np.nan, inplace=True)] *)
Definition replace_empty (df : DataFrame) : DataFrame :=
  {| columns := columns df;
     values := map (map (fun c => match c with
                                  | Str [] => NaN
                                  | _ => c
                                  end)) (values df) |}.

(** [df.dropna(how='all', inplace=True)] *)
Definition dropna_rows (df : DataFrame) : DataFrame :=
  {| columns := columns df;
     values := filter (existsb is_present) (values df) |}.

Definition column (j : nat) (vals : list (list cell)) : list cell :=
  map (fun r => nth j r NaN) vals.

Fixpoint select {A : Type} (mask : list bool) (l : list A) : list A :=
  match mask, l with
  | m :: mask', x :: l' => if m then x :: select mask' l' else select mask' l'
  | _, _ => []
  end.

(** [df.dropna(axis=1, how='all', inplace=True)] *)
Definition dropna_columns (df : DataFrame) : DataFrame :=
  let mask := map (fun j => existsb is_present (column j (values df)))
                  (seq 0 (length (columns df))) in
  {| columns := select mask (columns df);
     values := map (select mask) (values df) |}.

(** [df.applymap(lambda x: self.clean_text(str(x)) if isinstance(x, str) else x)] *)
Definition applymap_clean (df : DataFrame) : DataFrame :=
  {| columns := columns df;
     values := map (map (fun c => match c with
                                  | Str s => Str (clean_text s)
                                  | NaN => NaN
                                  end)) (values df) |}.

(** [df.empty]: some axis has length zero. *)
Definition empty (df : DataFrame) : bool :=
  (length (values df) =? 0) || (length (columns df) =? 0).

(** What one turn of the loop does with a table. *)
Inductive outcome :=
| Raised
| Rejected
| Accepted (r : RefinedTable).

Definition refine_table (table : CandidateTable) : outcome :=
  match make_frame (rows table) (header table) with
  | None => Raised
  | Some df =>
      let df := applymap_clean (dropna_columns (dropna_rows (replace_empty df))) in
      if negb (empty df) && (1 <? length (columns df))
      then Accepted {| refined_page := table_page table; data := df |}
      else Rejected
  end.

Definition refine_tables (raw_tables : list CandidateTable) : list RefinedTable :=
  flat_map (fun table => match refine_table table with
                         | Accepted r => [r]
                         | Raised | Rejected => []
                         end) raw_tables.

(** Shape of a frame: every row has one cell per column. *)
Definition rectangular (df : DataFrame) : Prop :=
  Forall (fun row => length row = length (columns df)) (values df).

(** No row, and no column, made of missing markers only. *)
Definition rows_present (df : DataFrame) : Prop :=
  Forall (fun row => existsb is_present row = true) (values df).

Definition columns_present (df : DataFrame) : Prop :=
  Forall (fun j => existsb is_present (column j (values df)) = true)
         (seq 0 (length (columns df))).

(** What claim C7 asks of an emitted table. *)
Definition refined_ok (r : RefinedTable) : Prop :=
  (2 <= length (columns (data r)))%nat
  /\ (1 <= length (values (data r)))%nat
  /\ rectangular (data r)
  /\ rows_present (data r)
  /\ columns_present (data r).

(** The position in [mask] of its [j]-th true entry, counting from 0. *)
Fixpoint kth_true (mask : list bool) (j : nat) : nat :=
  match mask with
  | [] => 0
  | true :: mask' =>
      match j with
      | O => 0
      | S j' => S (kth_true mask' j')
      end
  | false :: mask' => S (kth_true mask' j)
  end.

(** A candidate table taken as it is: its header as column names and its
    rows as rows of string cells. *)
Definition as_refined (table : CandidateTable) : RefinedTable :=
  {| refined_page := table_page table;
     data := {| columns := header table;
                values := map (map Str) (rows table) |} |}.

(** A cell [applymap] has been over: missing, or a string [clean_text]
    leaves unchanged. *)
Definition cell_clean (c : cell) : Prop :=
  match c with
  | NaN => True
  | Str s => clean_text s = s
  end.

(** What a refined table keeps of the candidate [t] it was made from. *)
Definition refined_from (t : CandidateTable) (r : RefinedTable) : Prop :=
  refined_page r = table_page t
  /\ incl (columns (data r)) (header t)
  /\ length (columns (data r)) <= length (header t)
  /\ length (values (data r)) <= length (rows t)
  /\ Forall (Forall cell_clean) (values (data r)).

End Refiner.

(** ** Workbook exporter: [clean_sheet_name] and [to_excel] *)

Module Exporter.

Import Text Refiner.

(** *** The literal of [invalid_chars] *)

Definition QUOTE : N := 39%N.
Definition BACKSLASH : N := 92%N.

(** What the scan of a string literal comes to on its source line. *)
Inductive literal_scan :=
| Closed (value rest : pystr)
| Unterminated
| Continued (value : pystr).

(** How Python reads a raw string literal in single quotes, from the
    character after the opening quote to the end of the source line.  A
    backslash stays in the value and keeps the character after it, a
    quote included, from closing the literal; a quote that no backslash
    precedes closes it, and [rest] is what follows on the line.  When the
    line ends first, the literal is [Unterminated], a syntax error, unless
    the line ends on the backslash itself, which takes the line break into
    the value. *)
Fixpoint raw_literal (escaped : bool) (line : pystr) : literal_scan :=
  match line with
  | [] => if escaped then Continued [] else Unterminated
  | c :: rest =>
      let after :=
        if escaped then raw_literal false rest
        else raw_literal (N.eqb c BACKSLASH) rest in
      if negb escaped && N.eqb c QUOTE then Closed [] rest
      else match after with
           | Closed value rest' => Closed (c :: value) rest'
           | Unterminated => Unterminated
           | Continued value => Continued (c :: value)
           end
  end.

(** Line 147 after [invalid_chars = r'], up to the end of the line. *)
Definition invalid_chars_source : pystr := py "[]:*?/\'".

(** The characters the specification lists for sheet names,
    [[ ] : * ? / \]. *)
Definition spec_invalid_chars : pystr := py "[]:*?/\".

(** *** [clean_sheet_name] and the name of a sheet *)

(** [name.replace(char, '')] *)
Definition remove_char (char : N) (name : pystr) : pystr :=
  filter (fun c => negb (N.eqb c char)) name.

(** [str] of an integer, as the f-strings format it. *)
Definition str_of_int (z : Z) : pystr := py (NilZero.string_of_int (Z.to_int z)).

(** [f"Page_{table['page']}_Table_{i+1}"] *)
Definition page_table_name (page : Z) (i : nat) : pystr :=
  py "Page_" ++ str_of_int page ++ py "_Table_" ++ str_of_int (Z.of_nat i + 1).

(** [not sheet_name.strip()] *)
Definition is_blank (name : pystr) : bool :=
  match strip name with
  | [] => true
  | _ :: _ => false
  end.

Section SheetNames.

(** The value of [invalid_chars].  Line 147 gives it none, its literal
    being [Unterminated]; the lines that follow are modelled for whatever
    characters the variable holds. *)
Variable invalid_chars : pystr.

(** Lines 148 to 151. *)
Definition clean_sheet_name (name : pystr) : pystr :=
  firstn 31 (fold_left (fun name char => remove_char char name) invalid_chars name).

(** The name computed for the table of index [i], lines 166 to 171. *)
Definition sheet_name (page : Z) (i : nat) : pystr :=
  let name := clean_sheet_name (page_table_name page i) in
  if is_blank name then py "Table_" ++ str_of_int (Z.of_nat i + 1) else name.

(** A character that [clean_sheet_name] keeps. *)
Definition allowed (c : N) : bool := negb (existsb (N.eqb c) invalid_chars).

End SheetNames.

(** *** The rows of a sheet *)

(** [dataframe_to_rows(table['data'], index=False, header=True)]: the row
    of column names, then the rows of the frame. *)
Definition dataframe_to_rows (df : DataFrame) : list (list cell) :=
  map Str (columns df) :: values df.

Definition clean_cell (c : cell) : cell :=
  match c with
  | Str s => Str (clean_text s)
  | NaN => NaN
  end.

(** [cleaned_row], lines 178 to 184. *)
Definition clean_row (row : list cell) : list cell := map clean_cell row.

(** *** [to_excel] *)

(** The workbooks saved so far, oldest first, each recorded by its path
    and by the tables the export was called on.  Which sheets and rows a
    saved workbook holds is not modelled: it depends on the spreadsheet
    library accepting them, a table whose export raises being left where
    it stands while the loop goes on. *)
Definition files := list (pystr * list RefinedTable).

(** [to_excel]: [tables] is [self.tables]; [save_ok] tells whether the
    outer [try] block, which builds and saves the workbook, ends without
    an exception.  The result is the returned boolean and the files after
    the call. *)
Definition to_excel (tables : list RefinedTable) (output_path : pystr)
           (save_ok : bool) (fs : files) : bool * files :=
  match tables with
  | [] => (false, fs)
  | _ :: _ =>
      if save_ok
      then (true, fs ++ [(output_path, tables)])
      else (false, fs)
  end.

(** The characters [str] writes for an integer: the sign and the digits. *)
Definition numeral_char (c : N) : bool :=
  N.eqb c 45 || (N.leb 48 c && N.leb c 57).

End Exporter.

(** ** Batch driver: [process_pdf] and [process_pdf_files] *)

Module Driver.

Import Text Structurer Detector Refiner Exporter.

(** [process_pdf], returning [self.tables]. *)
Definition process_pdf (reader : option (list pystr)) : list RefinedTable :=
  match extract_text_with_positions reader with
  | [] => []
  | (_ :: _) as pages_data => refine_tables (detect_table_boundaries pages_data)
  end.

(** [str.lower] on the letters that matter for the suffix test. *)
Definition lower (c : N) : N :=
  if ((65 <=? c) && (c <=? 90))%N then (c + 32)%N else c.

Fixpoint starts_with (prefix text : pystr) : bool :=
  match prefix, text with
  | [], _ => true
  | p :: prefix', c :: text' => N.eqb p c && starts_with prefix' text'
  | _ :: _, [] => false
  end.

(** [filename.lower().endswith('.pdf')] *)
Definition is_pdf (filename : pystr) : bool :=
  starts_with (rev (py ".pdf")) (rev (map lower filename)).

(** An entry of the input folder: its name, what the reader yields for
    it, and whether its workbook can be written. *)
Record Document := {
  filename : pystr;
  reader : option (list pystr);
  save_ok : bool
}.

Section Batch.

(** The path built from [output_folder] and the file name by [os.path]. *)
Variable output_path_of : pystr -> pystr.

(** The state of the loop: [processed_files] and the saved workbooks. *)
Definition process_file (st : nat * files) (doc : Document) : nat * files :=
  let (processed_files, fs) := st in
  if is_pdf (filename doc) then
    match process_pdf (reader doc) with
    | [] => (processed_files, fs)
    | (_ :: _) as tables =>
        let (ok, fs') :=
          to_excel tables (output_path_of (filename doc)) (save_ok doc) fs in
        if ok then (processed_files + 1, fs') else (processed_files, fs')
    end
  else (processed_files, fs).

(** [process_pdf_files]: the count printed at the end ([None] when the
    input folder does not exist and the function returns at once) and the
    saved workbooks. *)
Definition process_pdf_files (input_exists : bool) (docs : list Document)
           (fs : files) : option nat * files :=
  if input_exists
  then let (n, fs') := fold_left process_file docs (0, fs) in (Some n, fs')
  else (None, fs).

(** The documents the driver counts: a PDF name, some refined table, and
    an export that returns [True]. *)
Definition export_succeeds (doc : Document) : bool :=
  is_pdf (filename doc)
  && fst (to_excel (process_pdf (reader doc)) (output_path_of (filename doc))
                   (save_ok doc) []).

End Batch.

End Driver.

(** ** Sample inputs *)

Module Samples.

Import Structurer Detector.

Definition line_of (page_no : Z) (text : pystr) (ps : list pystr)
  : StructuredLine :=
  {| line_text := text;
     parts := ps;
     part_count := Z.of_nat (length ps);
     line_page := page_no |}.

Definition table_ab : CandidateTable :=
  {| table_page := 1; header := [py "a"; py "b"]; rows := [] |}.

Definition line_cde : StructuredLine :=
  line_of 1 (py "c  d  e") [py "c"; py "d"; py "e"].

(** One page with the lines ["a  b"] and ["c  d"]. *)
Definition lines_ab_cd : list (list StructuredLine) :=
  [[ line_of 1 (py "a  b") [py "a"; py "b"];
     line_of 1 (py "c  d") [py "c"; py "d"] ]].

(** The page text ["a  b\nc  d  e\nf  g"]. *)
Definition page_mismatch : pystr :=
  py "a  b" ++ [NEWLINE] ++ py "c  d  e" ++ [NEWLINE] ++ py "f  g".

(** The page text ["a  b\n\nc  d"], and the same without its empty line. *)
Definition page_blank : pystr :=
  py "a  b" ++ [NEWLINE] ++ [NEWLINE] ++ py "c  d".

Definition page_no_blank : pystr := py "a  b" ++ [NEWLINE] ++ py "c  d".

(** Scenario A of the specification: the page text
    ["Name  Age  City\nAlice  30  NYC\nBob  25  LA\n"]. *)
Definition page_scenario_a : pystr :=
  py "Name  Age  City" ++ [NEWLINE] ++ py "Alice  30  NYC" ++ [NEWLINE]
     ++ py "Bob  25  LA" ++ [NEWLINE].

(** A candidate with an empty row and an empty column. *)
Definition table_with_gaps : CandidateTable :=
  {| table_page := 2;
     header := [py "k"; py "v"; py "w"];
     rows := [[py "x"; []; py "1"]; [[]; []; []]; [py "y"; []; []]] |}.

(** A candidate left with one column once the empty ones are dropped. *)
Definition table_one_column : CandidateTable :=
  {| table_page := 1;
     header := [py "k"; py "v"];
     rows := [[py "x"; []]; [py "y"; []]] |}.

(** A folder with one document holding a table, one without text, and a
    file that is not a PDF; the workbook of the second PDF with a table
    cannot be saved. *)
Definition folder : list Driver.Document :=
  [ {| Driver.filename := py "report.PDF";
       Driver.reader := Some [page_scenario_a];
       Driver.save_ok := true |};
    {| Driver.filename := py "blank.pdf";
       Driver.reader := Some [[]];
       Driver.save_ok := true |};
    {| Driver.filename := py "notes.txt";
       Driver.reader := Some [page_scenario_a];
       Driver.save_ok := true |};
    {| Driver.filename := py "locked.pdf";
       Driver.reader := Some [page_scenario_a];
       Driver.save_ok := false |} ].

Definition out_path (filename : pystr) : pystr := py "out/" ++ filename ++ py ".xlsx".

(** Scenario B of the specification: two lines of prose on one page. *)
Definition lines_prose : list (list StructuredLine) :=
  [[ line_of 1 (py "one line of prose") [py "one line of prose"];
     line_of 1 (py "and another") [py "and another"] ]].

(** A document of three pages without text. *)
Definition pages_without_text : list pystr := [[]; []; []].

End Samples.

(** * Properties *)

(** ** The text normalizer *)

Section TextFacts.

Import Text.
Local Open Scope N_scope.

Lemma is_ascii_true c : is_ascii c = true <-> c <= 0x7F.
Proof. unfold is_ascii. apply N.leb_le. Qed.

Lemma is_ascii_false c : is_ascii c = false <-> 0x7F < c.
Proof. unfold is_ascii. apply N.leb_gt. Qed.

Lemma sub_non_ascii_ascii b text :
  Forall (fun c => c <= 0x7F) (sub_non_ascii b text).
Proof.
  revert b. induction text as [|c rest IH]; intros b; simpl.
  - constructor.
  - destruct (is_ascii c) eqn:E.
    + constructor; [now apply is_ascii_true | apply IH].
    + destruct b; [apply IH | constructor; [unfold SPACE; lia | apply IH]].
Qed.

Lemma sub_non_ascii_id b text :
  Forall (fun c => c <= 0x7F) text -> sub_non_ascii b text = text.
Proof.
  intros H. revert b. induction H as [|c rest Hc _ IH]; intros b; simpl.
  - reflexivity.
  - apply is_ascii_true in Hc. rewrite Hc. now rewrite IH.
Qed.

(** The regular expression read as a matcher: at a character above
    [0x7F] the match takes the whole run and leaves one space. *)
Lemma sub_non_ascii_run c rest :
  is_ascii c = false ->
  sub_non_ascii false (c :: rest) = SPACE :: sub_non_ascii false (drop_run rest).
Proof.
  intros Hc. simpl. rewrite Hc. f_equal.
  induction rest as [|d rest IH]; simpl.
  - reflexivity.
  - destruct (is_ascii d) eqn:Ed; [simpl; now rewrite Ed | exact IH].
Qed.

Lemma replace_char_id old new text :
  Forall (fun c => c <> old) text -> replace_char old new text = text.
Proof.
  unfold replace_char. induction 1 as [|c rest Hc _ IH]; simpl.
  - reflexivity.
  - apply N.eqb_neq in Hc. now rewrite Hc, IH.
Qed.

Lemma replaced_clean text : Forall clean_char (replaced text).
Proof.
  unfold replaced, replace_char. rewrite map_map.
  apply Forall_map. eapply Forall_impl; [|apply (sub_non_ascii_ascii false text)].
  intros c Hc. cbv beta in *. unfold clean_char, SPACE.
  destruct (c =? 0) eqn:E0.
  - simpl. lia.
  - apply N.eqb_neq in E0. destruct (c =? 255) eqn:E1; lia.
Qed.

Lemma replaced_id text : Forall clean_char text -> replaced text = text.
Proof.
  intros H. unfold replaced.
  assert (Ha : Forall (fun c => c <= 0x7F) text)
    by (eapply Forall_impl; [|exact H]; unfold clean_char; intros; lia).
  assert (H0 : Forall (fun c => c <> 0) text)
    by (eapply Forall_impl; [|exact H]; unfold clean_char; intros; lia).
  assert (H1 : Forall (fun c => c <> 0xFF) text)
    by (eapply Forall_impl; [|exact H]; unfold clean_char; intros; lia).
  rewrite (sub_non_ascii_id _ Ha), (replace_char_id _ H0).
  apply (replace_char_id _ H1).
Qed.

(** What [lstrip] removes is a prefix of whitespace. *)
Lemma lstrip_split text :
  exists l, text = l ++ lstrip text /\ Forall (fun c => is_space c = true) l.
Proof.
  induction text as [|c rest [l [Hl Hs]]]; simpl.
  - exists []. split; [reflexivity | constructor].
  - destruct (is_space c) eqn:E.
    + exists (c :: l). split; [simpl; now f_equal | now constructor].
    + exists []. split; [reflexivity | constructor].
Qed.

Lemma lstrip_leading text : leading_space (lstrip text) = false.
Proof.
  induction text as [|c rest IH]; simpl; [reflexivity|].
  destruct (is_space c) eqn:E; [exact IH | simpl; exact E].
Qed.

Lemma lstrip_id text : leading_space text = false -> lstrip text = text.
Proof. destruct text as [|c rest]; simpl; intros H; [reflexivity | now rewrite H]. Qed.

Lemma rstrip_split text :
  exists r, text = rstrip text ++ r /\ Forall (fun c => is_space c = true) r.
Proof.
  unfold rstrip. destruct (lstrip_split (rev text)) as [l [Hl Hs]].
  exists (rev l). split.
  - rewrite <- rev_app_distr, <- Hl. now rewrite rev_involutive.
  - now apply Forall_rev.
Qed.

Lemma rstrip_trailing text : trailing_space (rstrip text) = false.
Proof. unfold trailing_space, rstrip. rewrite rev_involutive. apply lstrip_leading. Qed.

Lemma rstrip_id text : trailing_space text = false -> rstrip text = text.
Proof.
  unfold trailing_space, rstrip. intros H. rewrite lstrip_id by exact H.
  apply rev_involutive.
Qed.

Lemma rstrip_leading text :
  leading_space text = false -> leading_space (rstrip text) = false.
Proof.
  intros H. destruct (rstrip_split text) as [r [Hr _]].
  destruct (rstrip text) as [|c s]; [reflexivity|].
  rewrite Hr in H. exact H.
Qed.

Lemma strip_leading text : leading_space (strip text) = false.
Proof. unfold strip. apply rstrip_leading, lstrip_leading. Qed.

Lemma strip_trailing text : trailing_space (strip text) = false.
Proof. unfold strip. apply rstrip_trailing. Qed.

Lemma strip_id text :
  leading_space text = false -> trailing_space text = false -> strip text = text.
Proof. intros Hl Ht. unfold strip. rewrite lstrip_id by exact Hl. now apply rstrip_id. Qed.

Lemma strip_split text :
  exists l r, text = l ++ strip text ++ r
              /\ Forall (fun c => is_space c = true) l
              /\ Forall (fun c => is_space c = true) r.
Proof.
  destruct (lstrip_split text) as [l [Hl Hsl]].
  destruct (rstrip_split (lstrip text)) as [r [Hr Hsr]].
  exists l, r. unfold strip. rewrite <- Hr. auto.
Qed.

Lemma strip_Forall (P : N -> Prop) text : Forall P text -> Forall P (strip text).
Proof.
  intros H. destruct (strip_split text) as [l [r [E _]]].
  rewrite E in H. apply Forall_app in H as [_ H]. now apply Forall_app in H as [H _].
Qed.

Lemma clean_text_clean text : Forall clean_char (clean_text text).
Proof. unfold clean_text. apply strip_Forall, replaced_clean. Qed.

Lemma clean_text_fixed text :
  Forall clean_char text -> leading_space text = false ->
  trailing_space text = false -> clean_text text = text.
Proof.
  intros Hc Hl Ht. unfold clean_text. rewrite replaced_id by exact Hc.
  now apply strip_id.
Qed.

Lemma clean_text_involutive text : clean_text (clean_text text) = clean_text text.
Proof.
  apply clean_text_fixed.
  - apply clean_text_clean.
  - apply strip_leading.
  - apply strip_trailing.
Qed.

(** The two replacements, character by character. *)
Lemma replaced_subst b text :
  replace_char 0xFF SPACE (replace_char 0 SPACE (sub_non_ascii b text))
  = map subst (collapse_runs b text).
Proof.
  unfold replace_char. rewrite map_map. revert b.
  induction text as [|c rest IH]; intros b; simpl; [reflexivity|].
  destruct (is_ascii c) eqn:E.
  - simpl. rewrite IH. f_equal. unfold subst. rewrite E. simpl.
    apply is_ascii_true in E. rewrite orb_false_r.
    destruct (c =? 0) eqn:E0; [reflexivity|].
    destruct (c =? 255) eqn:E1; [apply N.eqb_eq in E1; lia | reflexivity].
  - destruct b; simpl; [apply IH|]. rewrite IH. f_equal.
    unfold subst. rewrite E. simpl. now rewrite orb_true_r.
Qed.

Lemma filter_strip (keep : N -> bool) text :
  (forall c, is_space c = true -> keep c = false) ->
  filter keep (strip text) = filter keep text.
Proof.
  intros Hk. destruct (strip_split text) as [l [r [E [Hl Hr]]]].
  assert (drop : forall s, Forall (fun c => is_space c = true) s -> filter keep s = []).
  { induction 1 as [|c s Hc _ IH]; simpl; [reflexivity|]. now rewrite (Hk c Hc). }
  rewrite E at 2. rewrite !filter_app, (drop l Hl), (drop r Hr).
  now rewrite app_nil_r.
Qed.

Lemma is_space_SPACE : is_space SPACE = true.
Proof. reflexivity. Qed.

Lemma subst_kept c : is_ascii c = true -> (1 <=? c) = true -> subst c = c.
Proof.
  intros Ha H1. unfold subst. rewrite Ha. apply N.leb_le in H1.
  destruct (c =? 0) eqn:E0; [apply N.eqb_eq in E0; lia | reflexivity].
Qed.

Lemma subst_space c : is_ascii c && (1 <=? c) = false -> subst c = SPACE.
Proof.
  intros H. unfold subst. destruct (is_ascii c); simpl in *.
  - apply N.leb_gt in H. replace c with 0 by lia. reflexivity.
  - now rewrite orb_true_r.
Qed.

Lemma filter_subst_collapse b text :
  filter (fun c => negb (is_space c)) (map subst (collapse_runs b text))
  = filter (fun c => negb (is_space c) && (is_ascii c && (1 <=? c))) text.
Proof.
  revert b. induction text as [|c rest IH]; intros b; simpl; [reflexivity|].
  destruct (is_ascii c) eqn:E; simpl.
  - rewrite IH. destruct (1 <=? c) eqn:E1.
    + rewrite (subst_kept c E E1). now rewrite andb_true_r.
    + rewrite (subst_space c) by (now rewrite E, E1).
      rewrite is_space_SPACE. simpl. now rewrite andb_false_r.
  - rewrite andb_false_r. destruct b; simpl; [apply IH|].
    rewrite IH. rewrite (subst_space c) by (now rewrite E).
    now rewrite is_space_SPACE.
Qed.

End TextFacts.

Section TextClaims.

Import Text.
Local Open Scope N_scope.

Example clean_text_trims_and_replaces :
  clean_text ([32; 9] ++ py "Total" ++ [0xE9; 0x20AC] ++ py "12" ++ [0; 10])
  = py "Total 12".
Proof. reflexivity. Qed.

(** C10: the output of [clean_text] holds no character above [0x7F] and
    no null character, neither starts nor ends with whitespace, and is
    what remains of the replaced text once whitespace of the seven-bit
    range has been taken off both ends. *)
Theorem clean_text_seven_bit_trimmed (text : pystr) :
  Forall (fun c => c <= 0x7F /\ c <> 0) (clean_text text)
  /\ leading_space (clean_text text) = false
  /\ trailing_space (clean_text text) = false
  /\ exists l r,
       replaced text = l ++ clean_text text ++ r
       /\ Forall (fun c => is_space c = true /\ c <= 0x7F) l
       /\ Forall (fun c => is_space c = true /\ c <= 0x7F) r.
Proof.
  split; [|split; [|split]].
  - eapply Forall_impl; [|apply clean_text_clean]. unfold clean_char. intros; lia.
  - apply strip_leading.
  - apply strip_trailing.
  - unfold clean_text. destruct (strip_split (replaced text)) as [l [r [E [Hl Hr]]]].
    exists l, r. split; [exact E|].
    pose proof (replaced_clean text) as Hc. rewrite E in Hc.
    apply Forall_app in Hc as [Hcl Hc]. apply Forall_app in Hc as [_ Hcr].
    split.
    + apply Forall_forall. intros c Hin. rewrite Forall_forall in Hl, Hcl.
      specialize (Hcl c Hin). unfold clean_char in Hcl. split; [auto | lia].
    + apply Forall_forall. intros c Hin. rewrite Forall_forall in Hr, Hcr.
      specialize (Hcr c Hin). unfold clean_char in Hcr. split; [auto | lia].
Qed.

(** C5: [clean_text] is a total function on strings, and applying it to
    its own result changes nothing. *)
Theorem clean_text_idempotent (s : pystr) :
  exists out, clean_text s = out /\ clean_text (clean_text s) = out.
Proof. exists (clean_text s). split; [reflexivity | apply clean_text_involutive]. Qed.

(** C4 fails as stated: the control character [\x01] lies outside the
    printable range and is returned unchanged, and a run of two
    characters above [0x7F] gives one space, not two. *)
Lemma clean_text_keeps_control_characters :
  clean_text [97; 1; 98] = [97; 1; 98]
  /\ is_printable 1 = false
  /\ normalize_printable [97; 1; 98] = [97; 32; 98]
  /\ clean_text [97; 0xE9; 0xE9; 98] = [97; 32; 98]
  /\ normalize_printable [97; 0xE9; 0xE9; 98] = [97; 32; 32; 98]
  /\ ~ (forall text, Forall (fun c => is_printable c = true) (clean_text text))
  /\ ~ (forall text, clean_text text = normalize_printable text).
Proof.
  repeat split; try reflexivity.
  - intros H. specialize (H [97; 1; 98]).
    apply Forall_inv_tail, Forall_inv in H. discriminate H.
  - intros H. specialize (H [97; 1; 98]). discriminate H.
Qed.

(** C4, amended: [clean_text] replaces every null character and every
    maximal run of characters above [0x7F] by one space and trims the
    whitespace at both ends; the characters [\x01] to [\x7F] are kept as
    they are, so that the characters of the result other than whitespace
    are those of the input in that range, in the same order. *)
Theorem clean_text_replaces_runs (text : pystr) :
  clean_text text = strip (map subst (collapse_runs false text))
  /\ filter (fun c => negb (is_space c)) (clean_text text)
     = filter (fun c => negb (is_space c) && (is_ascii c && (1 <=? c))) text
  /\ Forall clean_char (clean_text text)
  /\ leading_space (clean_text text) = false
  /\ trailing_space (clean_text text) = false.
Proof.
  assert (E : clean_text text = strip (map subst (collapse_runs false text))).
  { unfold clean_text, replaced. now rewrite replaced_subst. }
  split; [exact E|]. split; [|split; [|split]].
  - rewrite E, filter_strip.
    + apply filter_subst_collapse.
    + intros c Hc. now rewrite Hc.
  - apply clean_text_clean.
  - apply strip_leading.
  - apply strip_trailing.
Qed.

End TextClaims.

(** ** The line structurer *)

Section StructurerFacts.

Import Text Structurer.

Lemma re_split_not_empty piece gap line : re_split piece gap line <> [].
Proof.
  revert piece gap. induction line as [|c rest IH]; intros piece gap; cbn [re_split].
  - destruct (2 <=? length gap); discriminate.
  - destruct (is_space c); [apply IH|].
    destruct (2 <=? length gap); [discriminate | apply IH].
Qed.

Lemma split_char_not_empty sep text : split_char sep text <> [].
Proof.
  destruct text as [|c rest]; simpl; [discriminate|].
  destruct (N.eqb c sep); [discriminate|].
  destruct (split_char sep rest); discriminate.
Qed.

(** Whatever the raw line, the loop body appends exactly one entry. *)
Lemma structure_line_one page_no raw :
  structure_line page_no raw
  = [ {| line_text := clean_text raw;
         parts := re_split_spaces (clean_text raw);
         part_count := Z.of_nat (length (re_split_spaces (clean_text raw)));
         line_page := page_no |} ].
Proof.
  unfold structure_line.
  destruct (re_split_spaces (clean_text raw)) eqn:E; [|reflexivity].
  now apply re_split_not_empty in E.
Qed.

Lemma structure_line_well_formed page_no raw :
  Forall Detector.well_formed (structure_line page_no raw).
Proof. rewrite structure_line_one. repeat constructor. Qed.

Lemma extract_pages_well_formed pages : forall page_num,
  Forall (Forall Detector.well_formed) (extract_pages page_num pages).
Proof.
  induction pages as [|text rest IH]; intros page_num; simpl.
  - constructor.
  - destruct text as [|c text']; [apply IH|].
    constructor; [|apply IH].
    apply Forall_flat_map, Forall_forall. intros raw _.
    apply structure_line_well_formed.
Qed.

Lemma extract_well_formed reader :
  Forall (Forall Detector.well_formed) (extract_text_with_positions reader).
Proof.
  destruct reader as [pages|]; simpl; [apply extract_pages_well_formed | constructor].
Qed.

Example re_split_three_columns :
  re_split_spaces (py "Name  Age   City") = [py "Name"; py "Age"; py "City"].
Proof. reflexivity. Qed.

Example re_split_single_space :
  re_split_spaces (py "New York  NY") = [py "New York"; py "NY"].
Proof. reflexivity. Qed.

End StructurerFacts.

(** ** The table boundary detector *)

Section DetectorFacts.

Import Text Structurer Detector Samples.

Lemma has_rows_true t : has_rows t = true -> (1 <= length (rows t))%nat.
Proof. unfold has_rows. apply Nat.leb_le. Qed.

Lemma close_emitted_ok tables t :
  Forall emitted_ok tables -> rows_match t -> has_rows t = true ->
  Forall emitted_ok (tables ++ [t]).
Proof.
  intros Ht Hr Hn. apply Forall_app. split; [exact Ht|].
  constructor; [|constructor]. split; [now apply has_rows_true | exact Hr].
Qed.

Lemma process_line_ok st line :
  well_formed line -> state_ok st -> state_ok (process_line st line).
Proof.
  intros Hwf. destruct st as [tables [t|]]; unfold state_ok; simpl; intros [Ht Hc].
  - destruct (1 <? part_count line)%Z.
    + destruct (part_count line =? Z.of_nat (length (header t)))%Z eqn:E; simpl.
      * split; [exact Ht|]. unfold rows_match in *. simpl.
        apply Forall_app. split; [exact Hc|]. constructor; [|constructor].
        rewrite length_map. apply Z.eqb_eq in E. rewrite Hwf in E.
        now apply Nat2Z.inj in E.
      * auto.
    + destruct (has_rows t) eqn:Hn; simpl; [|auto].
      split; [now apply close_emitted_ok | exact I].
  - destruct (1 <? part_count line)%Z; simpl; split; auto.
    unfold rows_match. simpl. constructor.
Qed.

Lemma end_of_page_ok st : state_ok st -> state_ok (end_of_page st).
Proof.
  destruct st as [tables [t|]]; unfold state_ok; simpl; intros [Ht Hc]; [|auto].
  destruct (has_rows t) eqn:Hn; simpl; [|auto].
  split; [now apply close_emitted_ok | exact I].
Qed.

Lemma process_page_ok page_data : forall st,
  Forall well_formed page_data -> state_ok st ->
  state_ok (process_page st page_data).
Proof.
  unfold process_page. intros st Hwf Hst. apply end_of_page_ok.
  revert st Hst. induction Hwf as [|line rest Hl _ IH]; intros st Hst; simpl.
  - exact Hst.
  - apply IH. now apply process_line_ok.
Qed.

Lemma detect_state_ok pages_data : forall st,
  Forall (Forall well_formed) pages_data -> state_ok st ->
  state_ok (fold_left process_page pages_data st).
Proof.
  intros st Hwf. revert st.
  induction Hwf as [|page_data rest Hp _ IH]; intros st Hst; simpl.
  - exact Hst.
  - apply IH. now apply process_page_ok.
Qed.

Lemma detect_emitted_ok pages_data :
  Forall (Forall well_formed) pages_data ->
  Forall emitted_ok (detect_table_boundaries pages_data).
Proof.
  intros Hwf. unfold detect_table_boundaries.
  apply detect_state_ok; [exact Hwf|]. split; simpl; [constructor | exact I].
Qed.

(** The invariant on the output of the whole front end. *)
Lemma detect_extract_emitted_ok reader :
  Forall emitted_ok (detect_table_boundaries (extract_text_with_positions reader)).
Proof. apply detect_emitted_ok, extract_well_formed. Qed.

End DetectorFacts.

Section DetectorClaims.

Import Text Structurer Detector Samples.

(** C6: on lines whose part count is the number of their parts, as the
    structurer builds them, every table the detector emits has at least
    one row and all its rows have the length of its header. *)
Theorem emitted_tables_rows_match_header
        (pages_data : list (list StructuredLine)) :
  Forall (Forall well_formed) pages_data ->
  Forall emitted_ok (detect_table_boundaries pages_data).
Proof. apply detect_emitted_ok. Qed.

Lemma emitted_tables_rows_match_header_witness :
  Forall (Forall well_formed) lines_ab_cd
  /\ Forall emitted_ok (detect_table_boundaries lines_ab_cd).
Proof.
  assert (H : Forall (Forall well_formed) lines_ab_cd) by (repeat constructor).
  split; [exact H | exact (emitted_tables_rows_match_header H)].
Defined.

(** C1 fails as stated: with the header [a, b] open, the line of parts
    [c, d, e] leaves the table open, so that on the page
    ["a  b\nc  d  e\nf  g"] the line [f, g] becomes a row of it. *)
Lemma mismatch_does_not_close :
  (1 < part_count line_cde)%Z
  /\ part_count line_cde <> Z.of_nat (length (header table_ab))
  /\ process_line ([], Some table_ab) line_cde = ([], Some table_ab)
  /\ close_table [] table_ab = ([], None)
  /\ detect_table_boundaries (extract_text_with_positions (Some [page_mismatch]))
     = [ {| table_page := 1;
            header := [py "a"; py "b"];
            rows := [[py "f"; py "g"]] |} ]
  /\ ~ mismatch_closes_table.
Proof.
  split; [reflexivity|]. split; [discriminate|].
  split; [reflexivity|]. split; [reflexivity|]. split; [reflexivity|].
  intros H. specialize (H [] table_ab line_cde).
  assert (H1 : (1 < part_count line_cde)%Z) by reflexivity.
  assert (H2 : part_count line_cde <> Z.of_nat (length (header table_ab)))
    by discriminate.
  specialize (H H1 H2). discriminate H.
Qed.

(** C1, amended: while a table is being built, a line with more than one
    part whose part count differs from the length of the header changes
    nothing: the table stays open and is neither emitted nor discarded,
    and no table is started from the line. *)
Theorem mismatch_line_is_ignored
        (tables : list CandidateTable) (t : CandidateTable)
        (line : StructuredLine) :
  (1 < part_count line)%Z ->
  part_count line <> Z.of_nat (length (header t)) ->
  process_line (tables, Some t) line = (tables, Some t).
Proof.
  intros H1 H2. unfold process_line.
  apply Z.ltb_lt in H1. rewrite H1.
  apply Z.eqb_neq in H2. now rewrite H2.
Qed.

Lemma mismatch_line_is_ignored_witness :
  (1 < part_count line_cde)%Z
  /\ part_count line_cde <> Z.of_nat (length (header table_ab))
  /\ process_line ([], Some table_ab) line_cde = ([], Some table_ab).
Proof.
  assert (H1 : (1 < part_count line_cde)%Z) by reflexivity.
  assert (H2 : part_count line_cde <> Z.of_nat (length (header table_ab)))
    by discriminate.
  split; [exact H1|]. split; [exact H2|].
  exact (mismatch_line_is_ignored [] table_ab line_cde H1 H2).
Defined.

(** C3 against the code: at the end of a page a table that has a header
    and no row is kept as the current table.  On the two pages ["a  b"]
    and ["c  d"] the header met on page 1 takes the line of page 2 as its
    row, and the table is emitted under page 1. *)
Theorem header_only_table_crosses_page :
  end_of_page ([], Some table_ab) = ([], Some table_ab)
  /\ close_table [] table_ab = ([], None)
  /\ detect_table_boundaries
       (extract_text_with_positions (Some [py "a  b"; py "c  d"]))
     = [ {| table_page := 1;
            header := [py "a"; py "b"];
            rows := [[py "c"; py "d"]] |} ]
  /\ ~ page_end_resets.
Proof.
  split; [reflexivity|]. split; [reflexivity|]. split; [reflexivity|].
  intros H. specialize (H [] table_ab). discriminate H.
Qed.

(** C2 against the code: [re.split] never returns an empty list, so the
    test [if parts:] lets every line through.  A line whose cleaned text
    is empty is emitted with the single part [''], and it closes the open
    table: the page ["a  b\n\nc  d"] yields no table, while the same page
    without its empty line yields one. *)
Theorem empty_line_is_emitted (page_no : Z) :
  structure_line page_no []
  = [ {| line_text := []; parts := [[]]; part_count := 1; line_page := page_no |} ]
  /\ (forall raw,
        structure_line page_no raw
        = [ {| line_text := clean_text raw;
               parts := re_split_spaces (clean_text raw);
               part_count := Z.of_nat (length (re_split_spaces (clean_text raw)));
               line_page := page_no |} ])
  /\ (forall tables t,
        process_line (tables, Some t)
                     {| line_text := []; parts := [[]]; part_count := 1;
                        line_page := page_no |}
        = close_table tables t)
  /\ extract_text_with_positions (Some [page_blank])
     = [[ {| line_text := py "a  b"; parts := [py "a"; py "b"];
             part_count := 2; line_page := 1 |};
          {| line_text := []; parts := [[]]; part_count := 1; line_page := 1 |};
          {| line_text := py "c  d"; parts := [py "c"; py "d"];
             part_count := 2; line_page := 1 |} ]]
  /\ detect_table_boundaries (extract_text_with_positions (Some [page_blank])) = []
  /\ detect_table_boundaries (extract_text_with_positions (Some [page_no_blank]))
     = [ {| table_page := 1;
            header := [py "a"; py "b"];
            rows := [[py "c"; py "d"]] |} ].
Proof.
  split; [reflexivity|]. split; [apply structure_line_one|].
  split; [reflexivity|]. repeat split.
Qed.

End DetectorClaims.

(** ** The table refiner *)

Section RefinerFacts.

Import Text Detector Refiner.

Lemma widest_ge rows r : In r rows -> length r <= widest rows.
Proof.
  induction rows as [|r0 rows IH]; simpl; [tauto|].
  intros [->|Hin]; [lia|]. specialize (IH Hin). lia.
Qed.

Lemma pad_length w r : length r <= w -> length (pad w r) = w.
Proof.
  intros H. unfold pad. rewrite length_app, length_map, repeat_length. lia.
Qed.

Lemma padded_rows rows :
  Forall (fun row => length row = widest rows) (map (pad (widest rows)) rows).
Proof.
  apply Forall_map, Forall_forall. intros r Hin.
  apply pad_length. now apply widest_ge.
Qed.

Lemma make_frame_rectangular rows header df :
  make_frame rows header = Some df -> rectangular df.
Proof.
  unfold make_frame, rectangular. destruct rows as [|r0 rows'].
  - intros [= <-]. constructor.
  - destruct (widest (r0 :: rows') =? length header) eqn:E; [|discriminate].
    intros [= <-]. apply Nat.eqb_eq in E. cbn [values columns].
    rewrite <- E. exact (padded_rows (r0 :: rows')).
Qed.

Lemma replace_empty_rectangular df : rectangular df -> rectangular (replace_empty df).
Proof.
  unfold rectangular. simpl. intros H. apply Forall_map.
  eapply Forall_impl; [|exact H]. intros row Hr. now rewrite length_map.
Qed.

Lemma dropna_rows_rectangular df : rectangular df -> rectangular (dropna_rows df).
Proof.
  unfold rectangular. simpl. intros H. rewrite Forall_forall in *.
  intros row Hin. apply filter_In in Hin as [Hin _]. auto.
Qed.

Lemma dropna_rows_present df : rows_present (dropna_rows df).
Proof.
  unfold rows_present. simpl. apply Forall_forall.
  intros row Hin. now apply filter_In in Hin as [_ Hp].
Qed.

Lemma select_length {A : Type} (mask : list bool) : forall l : list A,
  length l = length mask ->
  length (select mask l) = length (filter (fun b => b) mask).
Proof.
  induction mask as [|m mask IH]; intros [|x l]; simpl; try discriminate; auto.
  intros [= H]. destruct m; simpl; rewrite (IH l H); reflexivity.
Qed.

Lemma select_nth {A : Type} (d : A) (mask : list bool) : forall (l : list A) j,
  length l = length mask ->
  j < length (select mask l) ->
  nth j (select mask l) d = nth (kth_true mask j) l d
  /\ nth (kth_true mask j) mask false = true
  /\ kth_true mask j < length mask.
Proof.
  induction mask as [|m mask IH]; intros [|x l] j; simpl; try discriminate;
    try (intros _ Hj; lia).
  intros [= H] Hj. destruct m.
  - destruct j as [|j]; simpl in *.
    + repeat split; lia.
    + destruct (IH l j H) as [E [Ht Hk]]; [lia|]. repeat split; auto; lia.
  - destruct (IH l j H Hj) as [E [Ht Hk]]. repeat split; auto; lia.
Qed.

Lemma select_keeps (mask : list bool) : forall (l : list cell) j,
  nth j mask false = true ->
  j < length l ->
  is_present (nth j l NaN) = true ->
  existsb is_present (select mask l) = true.
Proof.
  induction mask as [|m mask IH]; intros [|x l] j; simpl.
  - destruct j; discriminate.
  - destruct j; discriminate.
  - intros _ Hj; lia.
  - destruct j as [|j]; intros Hm Hj Hp.
    + subst m. simpl. now rewrite Hp.
    + assert (Hr : existsb is_present (select mask l) = true)
        by (apply IH with (j := j); auto; lia).
      destruct m; simpl; rewrite Hr; [apply orb_true_r | reflexivity].
Qed.

Lemma mask_nth (vals : list (list cell)) n k :
  k < n ->
  nth k (map (fun j => existsb is_present (column j vals)) (seq 0 n)) false
  = existsb is_present (column k vals).
Proof.
  intros Hk.
  rewrite (nth_indep _ false (existsb is_present (column 0 vals)))
    by (rewrite length_map, length_seq; exact Hk).
  rewrite (map_nth (fun j => existsb is_present (column j vals))).
  now rewrite seq_nth.
Qed.

Lemma dropna_columns_rectangular df :
  rectangular df -> rectangular (dropna_columns df).
Proof.
  unfold rectangular, dropna_columns. simpl. intros H.
  apply Forall_map. eapply Forall_impl; [|exact H]. intros row Hr. cbv beta.
  rewrite !select_length; auto; now rewrite length_map, length_seq.
Qed.

Lemma dropna_columns_rows_present df :
  rectangular df -> rows_present df -> rows_present (dropna_columns df).
Proof.
  unfold rectangular, rows_present, dropna_columns. simpl. intros Hrect Hp.
  apply Forall_map. rewrite Forall_forall in *. intros row Hin.
  specialize (Hrect row Hin). specialize (Hp row Hin).
  apply existsb_exists in Hp as [c [Hc Hpc]].
  destruct (In_nth row c NaN Hc) as [j [Hj Ej]].
  apply select_keeps with (j := j); [|exact Hj|now rewrite Ej].
  rewrite mask_nth by lia.
  apply existsb_exists. exists (nth j row NaN). split; [|now rewrite Ej].
  unfold column. now apply (in_map (fun r => nth j r NaN)).
Qed.

Lemma dropna_columns_present df :
  rectangular df -> columns_present (dropna_columns df).
Proof.
  unfold rectangular, columns_present, dropna_columns. simpl.
  set (n := length (columns df)).
  set (mask := map (fun j => existsb is_present (column j (values df))) (seq 0 n)).
  intros Hrect. apply Forall_forall. intros j Hj.
  apply in_seq in Hj. simpl in Hj. destruct Hj as [_ Hj].
  assert (Hm : length mask = n) by (unfold mask; now rewrite length_map, length_seq).
  destruct (@select_nth _ [] mask (columns df) j) as [_ [Ht Hk]];
    [now rewrite Hm | exact Hj|].
  assert (E : column j (map (select mask) (values df))
              = column (kth_true mask j) (values df)).
  { unfold column. rewrite map_map. apply map_ext_in. intros row Hin.
    rewrite Forall_forall in Hrect. specialize (Hrect row Hin).
    apply select_nth; [now rewrite Hm|].
    rewrite select_length by now rewrite Hm.
    rewrite <- (@select_length _ mask (columns df)) by now rewrite Hm.
    exact Hj. }
  rewrite E. unfold mask in Ht at 2. rewrite mask_nth in Ht by lia. exact Ht.
Qed.

Lemma existsb_map_present (f : cell -> cell) row :
  (forall c, is_present (f c) = is_present c) ->
  existsb is_present (map f row) = existsb is_present row.
Proof.
  intros Hf. induction row as [|c row IH]; simpl; [reflexivity|].
  now rewrite Hf, IH.
Qed.

Lemma applymap_clean_ok df :
  rectangular df -> rows_present df -> columns_present df ->
  rectangular (applymap_clean df)
  /\ rows_present (applymap_clean df)
  /\ columns_present (applymap_clean df).
Proof.
  set (f := fun c => match c with Str s => Str (clean_text s) | NaN => NaN end).
  assert (Hf : forall c, is_present (f c) = is_present c) by (intros [|s]; reflexivity).
  unfold rectangular, rows_present, columns_present, applymap_clean. simpl.
  fold f. intros Hrect Hrows Hcols. split; [|split].
  - apply Forall_map. eapply Forall_impl; [|exact Hrect].
    intros row Hr. now rewrite length_map.
  - apply Forall_map. eapply Forall_impl; [|exact Hrows].
    intros row Hr. cbv beta. now rewrite existsb_map_present.
  - eapply Forall_impl; [|exact Hcols]. intros j Hj. cbv beta in *.
    replace (column j (map (map f) (values df)))
      with (map f (column j (values df))); [now rewrite existsb_map_present|].
    unfold column. rewrite !map_map. apply map_ext. intros row.
    now rewrite <- (map_nth f).
Qed.

Lemma refine_table_ok table r : refine_table table = Accepted r -> refined_ok r.
Proof.
  unfold refine_table.
  destruct (make_frame (rows table) (header table)) as [df0|] eqn:E; [|discriminate].
  apply make_frame_rectangular in E.
  set (df2 := dropna_rows (replace_empty df0)).
  assert (H2 : rectangular df2)
    by now apply dropna_rows_rectangular, replace_empty_rectangular.
  assert (P2 : rows_present df2) by apply dropna_rows_present.
  set (df3 := dropna_columns df2).
  assert (H3 : rectangular df3) by now apply dropna_columns_rectangular.
  assert (P3 : rows_present df3) by now apply dropna_columns_rows_present.
  assert (C3 : columns_present df3) by now apply dropna_columns_present.
  destruct (applymap_clean_ok H3 P3 C3) as [H4 [P4 C4]].
  set (df := applymap_clean df3) in *.
  destruct (negb (empty df) && (1 <? length (columns df))) eqn:Hc; [|discriminate].
  intros [= <-]. unfold refined_ok. cbn [data].
  apply andb_prop in Hc as [He Hn]. apply Nat.ltb_lt in Hn.
  apply negb_true_iff in He. unfold empty in He.
  apply orb_false_elim in He as [Hv _]. apply Nat.eqb_neq in Hv.
  repeat split; auto; lia.
Qed.

Lemma refine_tables_ok raw_tables : Forall refined_ok (refine_tables raw_tables).
Proof.
  unfold refine_tables. apply Forall_flat_map, Forall_forall. intros table _.
  destruct (refine_table table) eqn:E; try constructor.
  - now apply refine_table_ok in E.
  - constructor.
Qed.

End RefinerFacts.

Section RefinerClaims.

Import Text Structurer Detector Refiner Samples.

Example scenario_a_detected :
  detect_table_boundaries (extract_text_with_positions (Some [page_scenario_a]))
  = [ {| table_page := 1;
         header := [py "Name"; py "Age"; py "City"];
         rows := [[py "Alice"; py "30"; py "NYC"]; [py "Bob"; py "25"; py "LA"]] |} ].
Proof. reflexivity. Qed.

Example scenario_a_refined :
  refine_tables
    (detect_table_boundaries (extract_text_with_positions (Some [page_scenario_a])))
  = [ {| refined_page := 1;
         data := {| columns := [py "Name"; py "Age"; py "City"];
                    values := [[Str (py "Alice"); Str (py "30"); Str (py "NYC")];
                               [Str (py "Bob"); Str (py "25"); Str (py "LA")]] |} |} ].
Proof. reflexivity. Qed.

Example gaps_dropped :
  refine_table table_with_gaps
  = Accepted {| refined_page := 2;
                data := {| columns := [py "k"; py "w"];
                           values := [[Str (py "x"); Str (py "1")];
                                      [Str (py "y"); NaN]] |} |}.
Proof. reflexivity. Qed.

Example one_column_rejected : refine_table table_one_column = Rejected.
Proof. reflexivity. Qed.

Example ragged_rows_raise :
  refine_table {| table_page := 1; header := [py "k"; py "v"];
                  rows := [[py "x"; py "y"; py "z"]] |} = Raised.
Proof. reflexivity. Qed.

(** C7: every table [refine_tables] emits has at least two columns and at
    least one row, no row and no column of it holds missing markers only,
    and a candidate is either emitted in that shape or not emitted. *)
Theorem refined_tables_shape (raw_tables : list CandidateTable) :
  Forall refined_ok (refine_tables raw_tables)
  /\ Forall (fun table =>
               match refine_table table with
               | Accepted r => refined_ok r /\ refined_page r = table_page table
               | Raised | Rejected => True
               end) raw_tables.
Proof.
  split; [apply refine_tables_ok|].
  apply Forall_forall. intros table _.
  destruct (refine_table table) as [| |r] eqn:E; auto.
  split; [now apply refine_table_ok in E|].
  unfold refine_table in E.
  destruct (make_frame (rows table) (header table)); [|discriminate].
  destruct (_ && _); [|discriminate]. now injection E as <-.
Qed.

End RefinerClaims.

(** ** The workbook exporter *)

Section ExporterFacts.

Import Text Refiner Exporter.

Variable invalid_chars : pystr.

Lemma filter_remove_char (keep : N -> bool) char name :
  filter keep (remove_char char name)
  = filter (fun c => negb (N.eqb c char) && keep c) name.
Proof.
  unfold remove_char. induction name as [|c name IH]; simpl; [reflexivity|].
  destruct (N.eqb c char); simpl; [exact IH|].
  destruct (keep c); now rewrite IH.
Qed.

Lemma fold_remove_char chars : forall name,
  fold_left (fun name char => remove_char char name) chars name
  = filter (fun c => negb (existsb (N.eqb c) chars)) name.
Proof.
  induction chars as [|char chars IH]; intros name; simpl.
  - induction name as [|c name IHn]; simpl; [reflexivity | now rewrite <- IHn].
  - rewrite IH, filter_remove_char. apply filter_ext. intros c.
    now rewrite negb_orb.
Qed.

Lemma clean_sheet_name_filter name :
  clean_sheet_name invalid_chars name
  = firstn 31 (filter (allowed invalid_chars) name).
Proof. unfold clean_sheet_name. now rewrite fold_remove_char. Qed.

Lemma Forall_firstn {A : Type} (P : A -> Prop) n (l : list A) :
  Forall P l -> Forall P (firstn n l).
Proof.
  intros H. rewrite <- (firstn_skipn n l) in H. now apply Forall_app in H as [H _].
Qed.

Lemma allowed_not_invalid c :
  allowed invalid_chars c = true -> ~ In c invalid_chars.
Proof.
  unfold allowed. intros H Hin. apply negb_true_iff in H.
  assert (E : existsb (N.eqb c) invalid_chars = true).
  { apply existsb_exists. exists c. split; [exact Hin | apply N.eqb_refl]. }
  congruence.
Qed.

Lemma not_invalid_allowed c :
  ~ In c invalid_chars -> allowed invalid_chars c = true.
Proof.
  intros H. unfold allowed. apply negb_true_iff.
  destruct (existsb (N.eqb c) invalid_chars) eqn:E; [|reflexivity].
  apply existsb_exists in E as [x [Hin Hx]]. apply N.eqb_eq in Hx. now subst x.
Qed.

(** Whatever the name, the cleaned one is short and free of the
    characters of [invalid_chars]. *)
Lemma clean_sheet_name_valid name :
  length (clean_sheet_name invalid_chars name) <= 31
  /\ Forall (fun c => ~ In c invalid_chars) (clean_sheet_name invalid_chars name).
Proof.
  rewrite clean_sheet_name_filter. split.
  - apply firstn_le_length.
  - apply Forall_firstn, Forall_forall. intros c Hin.
    apply filter_In in Hin as [_ Hc]. now apply allowed_not_invalid.
Qed.

Lemma clean_sheet_name_cons c name :
  allowed invalid_chars c = true ->
  clean_sheet_name invalid_chars (c :: name)
  = c :: firstn 30 (filter (allowed invalid_chars) name).
Proof.
  intros Hc. rewrite clean_sheet_name_filter. simpl filter. now rewrite Hc.
Qed.

Lemma not_blank_cons c name : is_space c = false -> is_blank (c :: name) = false.
Proof.
  intros Hc. unfold is_blank, strip. simpl lstrip. rewrite Hc.
  destruct (rstrip_split (c :: name)) as [r [E Hr]].
  destruct (rstrip (c :: name)) as [|d s]; [|reflexivity].
  simpl in E. subst r. apply Forall_inv in Hr. congruence.
Qed.

Lemma page_table_name_head page i :
  page_table_name page i
  = 80%N :: (py "age_" ++ str_of_int page ++ py "_Table_"
                ++ str_of_int (Z.of_nat i + 1)).
Proof. reflexivity. Qed.

End ExporterFacts.

Section ExporterClaims.

Import Text Refiner Exporter.

(** The scan closes the raw literals of lines 17 and 44. *)
Example raw_literal_line_17 :
  raw_literal false (py "[^\x00-\x7F]+', ' ', text)")
  = Closed (py "[^\x00-\x7F]+") (py ", ' ', text)").
Proof. reflexivity. Qed.

Example raw_literal_line_44 :
  raw_literal false (py "\s{2,}', line)") = Closed (py "\s{2,}") (py ", line)").
Proof. reflexivity. Qed.

Example sheet_name_page_3 :
  sheet_name spec_invalid_chars 3 0 = py "Page_3_Table_1".
Proof. reflexivity. Qed.

Example sheet_name_truncated :
  sheet_name spec_invalid_chars 123456789012345678901234567890 4
  = py "Page_12345678901234567890123456".
Proof. reflexivity. Qed.

Example clean_sheet_name_strips :
  clean_sheet_name spec_invalid_chars (py "a[b]:c*d?e/f\g") = py "abcdefg".
Proof. reflexivity. Qed.

(** C8 against the code: the literal of [invalid_chars] on line 147 does
    not close.  Its backslash keeps the quote after it from ending the
    literal and the line ends there, so the file is refused before any
    sheet name is computed.  The lines after it do what the claim asks:
    for whatever characters the constant holds, the cleaned name has at
    most 31 characters and none of them, and with the seven characters of
    the claim every sheet name is also non-empty, the cleaned name never
    being blank. *)
Theorem invalid_chars_literal_unterminated :
  raw_literal false invalid_chars_source = Unterminated
  /\ (forall invalid_chars name,
        length (clean_sheet_name invalid_chars name) <= 31
        /\ Forall (fun c => ~ In c invalid_chars)
                  (clean_sheet_name invalid_chars name))
  /\ (forall page i,
        length (sheet_name spec_invalid_chars page i) <= 31
        /\ Forall (fun c => ~ In c spec_invalid_chars)
                  (sheet_name spec_invalid_chars page i)
        /\ sheet_name spec_invalid_chars page i <> []
        /\ is_blank (clean_sheet_name spec_invalid_chars (page_table_name page i))
           = false).
Proof.
  split; [reflexivity|]. split; [intros chars name; apply clean_sheet_name_valid|].
  intros page i.
  assert (Hb : is_blank (clean_sheet_name spec_invalid_chars (page_table_name page i))
               = false).
  { rewrite page_table_name_head, clean_sheet_name_cons by reflexivity.
    now apply not_blank_cons. }
  assert (E : sheet_name spec_invalid_chars page i
              = clean_sheet_name spec_invalid_chars (page_table_name page i)).
  { unfold sheet_name. now rewrite Hb. }
  destruct (clean_sheet_name_valid spec_invalid_chars (page_table_name page i))
    as [Hlen Hchars].
  rewrite E. split; [exact Hlen|]. split; [exact Hchars|]. split; [|exact Hb].
  rewrite page_table_name_head, clean_sheet_name_cons by reflexivity. discriminate.
Qed.

End ExporterClaims.

(** ** The batch driver *)

Section DriverFacts.

Import Text Refiner Exporter Driver.

Variable output_path_of : pystr -> pystr.

Lemma to_excel_result tables path ok fs :
  fst (to_excel tables path ok fs) = fst (to_excel tables path ok []).
Proof. destruct tables; simpl; [reflexivity|]. now destruct ok. Qed.

Lemma to_excel_true tables path ok fs :
  fst (to_excel tables path ok fs) = true ->
  ok = true /\ tables <> []
  /\ exists wb, snd (to_excel tables path ok fs) = fs ++ [(path, wb)].
Proof.
  destruct tables as [|t tables]; simpl; [discriminate|].
  destruct ok; simpl; [|discriminate]. intros _.
  split; [reflexivity|]. split; [discriminate|]. eexists. reflexivity.
Qed.

Lemma to_excel_false tables path ok fs :
  fst (to_excel tables path ok fs) = false ->
  snd (to_excel tables path ok fs) = fs.
Proof.
  destruct tables as [|t tables]; simpl; [reflexivity|].
  destruct ok; simpl; [discriminate | reflexivity].
Qed.

(** One turn of the loop: the counter moves by one exactly when the
    export of the document returns [True], and then one workbook is saved
    under the path of the document. *)
Lemma process_file_step n fs doc :
  exists saved,
    process_file output_path_of (n, fs) doc
    = (n + length saved, fs ++ saved)
    /\ map fst saved
       = (if export_succeeds output_path_of doc
          then [output_path_of (filename doc)] else []).
Proof.
  unfold process_file, export_succeeds.
  destruct (is_pdf (filename doc)); simpl.
  2:{ exists []. simpl. now rewrite Nat.add_0_r, app_nil_r. }
  destruct (process_pdf (reader doc)) as [|t tables].
  { exists []. simpl. now rewrite Nat.add_0_r, app_nil_r. }
  destruct (save_ok doc); simpl.
  - eexists [(_, _)]. split; reflexivity.
  - exists []. simpl. now rewrite Nat.add_0_r, app_nil_r.
Qed.

Lemma process_files_count docs : forall n fs,
  exists saved,
    fold_left (process_file output_path_of) docs (n, fs)
    = (n + length saved, fs ++ saved)
    /\ map fst saved
       = map (fun doc => output_path_of (filename doc))
             (filter (export_succeeds output_path_of) docs).
Proof.
  induction docs as [|doc docs IH]; intros n fs; cbn [fold_left filter].
  - exists []. simpl. now rewrite Nat.add_0_r, app_nil_r.
  - destruct (process_file_step n fs doc) as [s1 [E1 P1]].
    destruct (IH (n + length s1) (fs ++ s1)) as [s2 [E2 P2]].
    exists (s1 ++ s2). split.
    + rewrite E1. etransitivity; [exact E2|].
      now rewrite length_app, Nat.add_assoc, app_assoc.
    + rewrite map_app, P1, P2.
      now destruct (export_succeeds output_path_of doc).
Qed.

Lemma export_succeeds_saved doc :
  export_succeeds output_path_of doc = true ->
  is_pdf (filename doc) = true
  /\ save_ok doc = true
  /\ process_pdf (reader doc) <> [].
Proof.
  unfold export_succeeds. intros H. apply andb_prop in H as [Hp Hx].
  apply to_excel_true in Hx as [Hs [Ht _]]. auto.
Qed.

End DriverFacts.

Section DriverClaims.

Import Text Refiner Exporter Driver Samples.

Example folder_run :
  fst (process_pdf_files out_path true folder []) = Some 1
  /\ map fst (snd (process_pdf_files out_path true folder []))
     = [py "out/report.PDF.xlsx"].
Proof. split; reflexivity. Qed.

(** C9: [to_excel] on an empty list of tables returns [False] and saves
    nothing; the count [process_pdf_files] reports is the number of
    documents whose export returned [True], each of which had its
    workbook saved, and these are the only workbooks saved by the run. *)
Theorem nothing_to_export_and_count (output_path_of : pystr -> pystr) :
  (forall output_path ok fs, to_excel [] output_path ok fs = (false, fs))
  /\ (forall docs fs,
        exists saved,
          process_pdf_files output_path_of true docs fs
          = (Some (length saved), fs ++ saved)
          /\ map fst saved
             = map (fun doc => output_path_of (filename doc))
                   (filter (export_succeeds output_path_of) docs)
          /\ length saved = length (filter (export_succeeds output_path_of) docs)
          /\ Forall (fun doc => save_ok doc = true
                                /\ process_pdf (reader doc) <> []
                                /\ fst (to_excel (process_pdf (reader doc))
                                                 (output_path_of (filename doc))
                                                 (save_ok doc) fs) = true)
                    (filter (export_succeeds output_path_of) docs)).
Proof.
  split; [reflexivity|]. intros docs fs.
  destruct (process_files_count output_path_of docs 0 fs) as [saved [E P]].
  exists saved. unfold process_pdf_files. rewrite E. simpl.
  split; [reflexivity|]. split; [exact P|]. split.
  - rewrite <- (length_map fst saved), P. apply length_map.
  - apply Forall_forall. intros doc Hin. apply filter_In in Hin as [_ Hs].
    destruct (export_succeeds_saved output_path_of doc Hs) as [_ [Hok Ht]].
    split; [exact Hok|]. split; [exact Ht|].
    rewrite to_excel_result. unfold export_succeeds in Hs.
    now apply andb_prop in Hs as [_ Hx].
Qed.

End DriverClaims.

(** * Further properties of the code *)

(** ** [clean_text] *)

Section TextMore.

Import Text.
Local Open Scope N_scope.

Lemma sub_non_ascii_length b text :
  (length (sub_non_ascii b text) <= length text)%nat.
Proof.
  revert b. induction text as [|c rest IH]; intros b; simpl; [lia|].
  destruct (is_ascii c); simpl.
  - specialize (IH false). lia.
  - destruct b; simpl; specialize (IH true); lia.
Qed.

Lemma strip_length text : (length (strip text) <= length text)%nat.
Proof.
  destruct (strip_split text) as [l [r [E _]]].
  rewrite E at 2. rewrite !length_app. lia.
Qed.

Lemma blank_char_spec c :
  blank_char c = negb (negb (is_space c) && (is_ascii c && (1 <=? c))).
Proof.
  unfold blank_char. destruct (is_space c); simpl; [reflexivity|].
  destruct (is_ascii c); simpl.
  - rewrite orb_false_r. destruct (c =? 0) eqn:E0.
    + apply N.eqb_eq in E0. now subst c.
    + apply N.eqb_neq in E0. symmetry. apply negb_false_iff, N.leb_le. lia.
  - now rewrite orb_true_r.
Qed.

Lemma filter_nil_Forall {A : Type} (f : A -> bool) l :
  filter f l = [] <-> Forall (fun x => f x = false) l.
Proof.
  induction l as [|x l IH]; simpl.
  - split; constructor.
  - destruct (f x) eqn:E; split.
    + discriminate.
    + intros H. apply Forall_inv in H. congruence.
    + intros H. constructor; [exact E | now apply IH].
    + intros H. apply IH. now apply Forall_inv_tail in H.
Qed.

Lemma trimmed_all_space_nil text :
  leading_space text = false ->
  filter (fun c => negb (is_space c)) text = [] ->
  text = [].
Proof.
  destruct text as [|c rest]; simpl; [reflexivity|].
  intros H. rewrite H. discriminate.
Qed.

(** X1: the strings [clean_text] leaves unchanged are exactly those made
    of the characters [\x01] to [\x7F] that neither start nor end with
    whitespace. *)
Theorem clean_text_fixed_points (text : pystr) :
  clean_text text = text
  <-> Forall clean_char text
      /\ leading_space text = false
      /\ trailing_space text = false.
Proof.
  split.
  - intros E. rewrite <- E. split; [apply clean_text_clean|].
    split; [apply strip_leading | apply strip_trailing].
  - intros [Hc [Hl Ht]]. now apply clean_text_fixed.
Qed.

(** X2: [clean_text] returns the empty string exactly for the inputs made
    of whitespace, null characters and characters above [0x7F] only. *)
Theorem clean_text_empty_iff (text : pystr) :
  clean_text text = [] <-> Forall (fun c => blank_char c = true) text.
Proof.
  assert (E : filter (fun c => negb (is_space c)) (clean_text text)
              = filter (fun c => negb (is_space c) && (is_ascii c && (1 <=? c))) text).
  { unfold clean_text, replaced. rewrite replaced_subst, filter_strip.
    - apply filter_subst_collapse.
    - intros c Hc. now rewrite Hc. }
  split.
  - intros H. rewrite H in E. simpl in E. symmetry in E.
    apply filter_nil_Forall in E. eapply Forall_impl; [|exact E].
    intros c Hc. cbv beta in Hc. now rewrite blank_char_spec, Hc.
  - intros H. apply trimmed_all_space_nil; [apply strip_leading|].
    rewrite E. apply filter_nil_Forall. eapply Forall_impl; [|exact H].
    intros c Hc. cbv beta in Hc. rewrite blank_char_spec in Hc.
    now apply negb_true_iff in Hc.
Qed.

(** X3: [clean_text] never returns a string longer than its input. *)
Theorem clean_text_length (text : pystr) :
  (length (clean_text text) <= length text)%nat.
Proof.
  unfold clean_text. etransitivity; [apply strip_length|].
  unfold replaced, replace_char. rewrite !length_map.
  apply sub_non_ascii_length.
Qed.

End TextMore.

(** ** [extract_text_with_positions] *)

Section StructurerMore.

Import Text Structurer.

Lemma filter_space_nil gap :
  Forall (fun c => is_space c = true) gap ->
  filter (fun c => negb (is_space c)) gap = [].
Proof.
  induction 1 as [|c gap Hc _ IH]; simpl; [reflexivity|]. now rewrite Hc.
Qed.

Lemma re_split_keeps_content line : forall piece gap,
  Forall (fun c => is_space c = true) gap ->
  filter (fun c => negb (is_space c)) (concat (re_split piece gap line))
  = filter (fun c => negb (is_space c)) (piece ++ line).
Proof.
  induction line as [|c rest IH]; intros piece gap Hgap; cbn [re_split].
  - destruct (2 <=? length gap); cbn [concat]; rewrite ?app_nil_r; [reflexivity|].
    now rewrite !filter_app, (filter_space_nil Hgap), app_nil_r.
  - destruct (is_space c) eqn:Ec.
    + rewrite IH by (apply Forall_app; split; [exact Hgap | now constructor]).
      rewrite !filter_app. simpl. now rewrite Ec.
    + destruct (2 <=? length gap).
      * cbn [concat]. rewrite filter_app, IH by constructor.
        symmetry. apply filter_app.
      * rewrite IH by constructor. rewrite <- !app_assoc, !filter_app.
        rewrite (filter_space_nil Hgap). simpl. now rewrite Ec.
Qed.

Lemma double_space_app_space gap text :
  Forall (fun c => is_space c = true) gap ->
  double_space (gap ++ text) = false ->
  (length gap <= 1)%nat /\ double_space text = false
  /\ (gap <> [] -> leading_space text = false).
Proof.
  intros Hgap. destruct Hgap as [|g gap Hg Hgap]; simpl.
  - intros H. split; [lia|]. split; [exact H | congruence].
  - rewrite Hg. simpl. intros H. apply orb_false_elim in H as [Hl Hd].
    destruct Hgap as [|g' gap Hg' Hgap]; simpl in *.
    + split; [lia|]. split; [exact Hd | intros _; exact Hl].
    + congruence.
Qed.

Lemma re_split_single line : forall piece gap,
  Forall (fun c => is_space c = true) gap ->
  double_space (gap ++ line) = false ->
  re_split piece gap line = [piece ++ gap ++ line].
Proof.
  induction line as [|c rest IH]; intros piece gap Hgap Hd; cbn [re_split].
  - destruct (double_space_app_space _ Hgap Hd) as [Hlen _].
    rewrite app_nil_r.
    destruct (2 <=? length gap) eqn:E; [apply Nat.leb_le in E; lia | reflexivity].
  - destruct (double_space_app_space _ Hgap Hd) as [Hlen [Hr Hl]].
    destruct (is_space c) eqn:Ec.
    + assert (gap = []) as ->.
      { destruct gap as [|g gap]; [reflexivity|].
        simpl in Hl. rewrite Ec in Hl. discriminate Hl. discriminate. }
      rewrite IH; [now rewrite <- !app_assoc | repeat constructor; exact Ec | exact Hr].
    + destruct (2 <=? length gap) eqn:E; [apply Nat.leb_le in E; lia|].
      simpl in Hr. rewrite Ec in Hr. simpl in Hr.
      rewrite IH; [now rewrite <- !app_assoc | constructor | exact Hr].
Qed.

Lemma double_space_space_app gap text :
  Forall (fun c => is_space c = true) gap ->
  (2 <= length gap)%nat ->
  double_space (gap ++ text) = true.
Proof.
  intros Hgap Hlen. destruct Hgap as [|g gap Hg Hgap]; simpl in *; [lia|].
  destruct Hgap as [|g' gap Hg' Hgap]; simpl in *; [lia|].
  now rewrite Hg, Hg'.
Qed.

Lemma re_split_several line : forall piece gap,
  Forall (fun c => is_space c = true) gap ->
  double_space (gap ++ line) = true ->
  (2 <= length (re_split piece gap line))%nat.
Proof.
  induction line as [|c rest IH]; intros piece gap Hgap Hd; cbn [re_split].
  - destruct (2 <=? length gap) eqn:E; [simpl; lia|].
    apply Nat.leb_gt in E. rewrite app_nil_r in Hd.
    destruct Hgap as [|g gap Hg Hgap]; [discriminate|].
    destruct Hgap as [|g' gap Hg' Hgap]; simpl in *; [|lia].
    rewrite andb_false_r in Hd. discriminate.
  - destruct (is_space c) eqn:Ec.
    + apply IH; [apply Forall_app; split; [exact Hgap | now constructor]|].
      now rewrite <- app_assoc.
    + destruct (2 <=? length gap) eqn:E.
      * pose proof (re_split_not_empty [c] [] rest) as Hne.
        destruct (re_split [c] [] rest); [congruence | simpl; lia].
      * apply Nat.leb_gt in E. apply IH; [constructor|]. simpl.
        destruct Hgap as [|g gap Hg Hgap]; simpl in *.
        -- rewrite Ec in Hd. exact Hd.
        -- destruct gap; simpl in *; [|lia].
           rewrite Ec in Hd. rewrite andb_false_r in Hd. exact Hd.
Qed.

(** X4: [re.split(r'\s{2,}', line)] keeps every character of the line
    that is not whitespace, in order, and the line comes back as one part
    exactly when it holds no two whitespace characters side by side. *)
Theorem re_split_spaces_parts (line : pystr) :
  filter (fun c => negb (is_space c)) (concat (re_split_spaces line))
  = filter (fun c => negb (is_space c)) line
  /\ (1 <= length (re_split_spaces line))%nat
  /\ (double_space line = false <-> re_split_spaces line = [line])
  /\ (double_space line = true <-> (2 <= length (re_split_spaces line))%nat).
Proof.
  unfold re_split_spaces.
  assert (Hone : double_space line = false -> re_split [] [] line = [line]).
  { intros H. now rewrite re_split_single by (try constructor; exact H). }
  assert (Htwo : double_space line = true -> (2 <= length (re_split [] [] line))%nat).
  { intros H. apply re_split_several; [constructor | exact H]. }
  split; [now rewrite re_split_keeps_content by constructor|].
  split.
  { pose proof (re_split_not_empty [] [] line) as Hne.
    destruct (re_split [] [] line); [congruence | simpl; lia]. }
  split; split; auto.
  - intros E. destruct (double_space line); [|reflexivity].
    specialize (Htwo eq_refl). rewrite E in Htwo. simpl in Htwo. lia.
  - intros H. destruct (double_space line); [reflexivity|].
    rewrite (Hone eq_refl) in H. simpl in H. lia.
Qed.

End StructurerMore.

Section StructurerLines.

Import Text Structurer.

Lemma leading_space_app a b :
  a <> [] -> leading_space (a ++ b) = leading_space a.
Proof. destruct a; [congruence | reflexivity]. Qed.

Lemma trailing_space_app a b :
  b <> [] -> trailing_space (a ++ b) = trailing_space b.
Proof.
  intros Hb. unfold trailing_space. rewrite rev_app_distr.
  apply leading_space_app. intros E. apply Hb.
  now rewrite <- (rev_involutive b), E.
Qed.

Lemma trailing_space_gap gap :
  gap <> [] -> Forall (fun c => is_space c = true) gap ->
  trailing_space gap = true.
Proof.
  intros Hne Hgap. unfold trailing_space. apply Forall_rev in Hgap.
  destruct (rev gap) as [|g r] eqn:E.
  - exfalso. apply Hne. now rewrite <- (rev_involutive gap), E.
  - simpl. now apply Forall_inv in Hgap.
Qed.

Lemma trailing_space_last a c : trailing_space (a ++ [c]) = is_space c.
Proof. unfold trailing_space. now rewrite rev_app_distr. Qed.

(** The parts cut out of a line that ends on a character other than
    whitespace, once a first part has been started. *)
Lemma re_split_solid line : forall piece gap,
  solid piece ->
  Forall (fun c => is_space c = true) gap ->
  Forall clean_char gap ->
  Forall clean_char line ->
  trailing_space (piece ++ gap ++ line) = false ->
  Forall solid (re_split piece gap line).
Proof.
  induction line as [|c rest IH]; intros piece gap Hp Hgap Hcg Hcl Ht;
    cbn [re_split].
  - assert (gap = []) as ->.
    { destruct gap as [|g gap]; [reflexivity|]. exfalso.
      rewrite app_nil_r, trailing_space_app, trailing_space_gap in Ht;
        try discriminate; exact Hgap. }
    simpl. rewrite app_nil_r. constructor; [exact Hp | constructor].
  - apply Forall_inv in Hcl as Hc. apply Forall_inv_tail in Hcl.
    destruct (is_space c) eqn:Ec.
    + apply IH; auto.
      * apply Forall_app. split; [exact Hgap | now constructor].
      * apply Forall_app. split; [exact Hcg | now constructor].
      * now rewrite <- app_assoc.
    + assert (Hc1 : solid [c]).
      { repeat split; try discriminate; simpl; auto. }
      assert (Ht' : trailing_space ([c] ++ [] ++ rest) = false).
      { rewrite app_assoc, trailing_space_app in Ht by discriminate. exact Ht. }
      destruct (2 <=? length gap).
      * constructor; [exact Hp | now apply IH].
      * apply IH; auto; [|now rewrite <- !app_assoc].
        destruct Hp as [Hne [Hcp [Hlp Htp]]]. repeat split.
        -- destruct piece; [congruence | discriminate].
        -- apply Forall_app. split; [exact Hcp|].
           apply Forall_app. split; [exact Hcg | now constructor].
        -- now rewrite leading_space_app.
        -- now rewrite app_assoc, trailing_space_last.
Qed.

Lemma re_split_spaces_solid line :
  solid line -> Forall solid (re_split_spaces line).
Proof.
  intros [Hne [Hc [Hl Ht]]]. unfold re_split_spaces.
  destruct line as [|c rest]; [congruence|].
  simpl in Hl. cbn [re_split]. rewrite Hl. simpl.
  apply Forall_inv in Hc as Hc0. apply Forall_inv_tail in Hc.
  apply re_split_solid; auto.
  repeat split; try discriminate; simpl; auto.
Qed.

Lemma solid_fixed text : solid text -> clean_text text = text.
Proof. intros [_ [Hc [Hl Ht]]]. now apply clean_text_fixed. Qed.

Lemma clean_text_solid_or_empty text :
  clean_text text = [] \/ solid (clean_text text).
Proof.
  destruct (clean_text text) as [|c rest] eqn:E; [now left|]. right.
  rewrite <- E. repeat split.
  - rewrite E. discriminate.
  - apply clean_text_clean.
  - apply strip_leading.
  - apply strip_trailing.
Qed.

Lemma structure_line_ok page_no raw :
  Forall line_ok (structure_line page_no raw).
Proof.
  rewrite structure_line_one. constructor; [|constructor].
  unfold line_ok. cbn [parts part_count line_text].
  split; [reflexivity|]. split; [|split].
  - pose proof (re_split_not_empty [] [] (clean_text raw)) as Hne.
    unfold re_split_spaces. destruct (re_split [] [] (clean_text raw));
      [congruence | simpl length; lia].
  - apply clean_text_involutive.
  - destruct (clean_text_solid_or_empty raw) as [E|Hs].
    + left. now rewrite E.
    + right. now apply re_split_spaces_solid.
Qed.

Lemma extract_lines_ok reader :
  Forall (Forall line_ok) (extract_text_with_positions reader).
Proof.
  destruct reader as [pages|]; simpl; [|constructor].
  generalize 0%Z. induction pages as [|text rest IH]; intros n; simpl.
  - constructor.
  - destruct text as [|c text']; [apply IH|].
    constructor; [|apply IH].
    apply Forall_flat_map, Forall_forall. intros raw _.
    apply structure_line_ok.
Qed.

(** X5: every line the structurer emits has [part_count = len(parts)],
    at least one part, a text that [clean_text] leaves unchanged, and
    parts that are either the single empty part of an empty line or all
    non-empty, free of whitespace at both ends and unchanged by
    [clean_text]. *)
Theorem structured_lines_ok (reader : option (list pystr)) :
  Forall (Forall line_ok) (extract_text_with_positions reader)
  /\ Forall (Forall (fun line =>
               Forall (fun part => clean_text part = part) (parts line)))
            (extract_text_with_positions reader).
Proof.
  pose proof (extract_lines_ok reader) as H.
  split; [exact H|].
  eapply Forall_impl; [|exact H]. intros page_data Hp.
  eapply Forall_impl; [|exact Hp]. intros line [_ [_ [_ [E|Hs]]]].
  - rewrite E. repeat constructor.
  - eapply Forall_impl; [|exact Hs]. intros part. apply solid_fixed.
Qed.

End StructurerLines.

Section StructurerPages.

Import Text Structurer.

Lemma page_lines_page page_no text :
  Forall (fun line => line_page line = page_no) (page_lines page_no text).
Proof.
  unfold page_lines. apply Forall_flat_map, Forall_forall. intros raw _.
  rewrite structure_line_one. repeat constructor.
Qed.

Lemma page_lines_not_empty page_no text : page_lines page_no text <> [].
Proof.
  unfold page_lines.
  pose proof (split_char_not_empty NEWLINE (clean_text text)) as Hne.
  destruct (split_char NEWLINE (clean_text text)) as [|raw raws]; [congruence|].
  simpl. rewrite structure_line_one. discriminate.
Qed.

Lemma extract_pages_in pages : forall n page_data,
  In page_data (extract_pages n pages)
  <-> exists k text,
        nth_error pages k = Some text
        /\ text <> []
        /\ page_data = page_lines (n + Z.of_nat k + 1) text.
Proof.
  induction pages as [|text rest IH]; intros n page_data.
  - simpl. split; [tauto|]. intros [k [text [Hk _]]]. destruct k; discriminate.
  - assert (Hrest : In page_data (extract_pages (n + 1) rest)
                    <-> exists k text',
                          nth_error (text :: rest) (S k) = Some text'
                          /\ text' <> []
                          /\ page_data = page_lines (n + Z.of_nat (S k) + 1) text').
    { rewrite IH. split; intros [k [text' [Hk [Hne E]]]]; exists k, text';
        (split; [exact Hk|]; split; [exact Hne|]); rewrite E; f_equal; lia. }
    destruct text as [|c text'].
    + simpl extract_pages. rewrite Hrest. split.
      * intros [k [t [Hk H]]]. now exists (S k), t.
      * intros [k [t [Hk [Hne E]]]]. destruct k as [|k].
        -- simpl in Hk. injection Hk as <-. congruence.
        -- now exists k, t.
    + change (extract_pages n ((c :: text') :: rest))
        with (page_lines (n + 1) (c :: text') :: extract_pages (n + 1) rest).
      simpl In. rewrite Hrest. split.
      * intros [E|[k [t [Hk H]]]].
        -- exists 0%nat, (c :: text'). split; [reflexivity|].
           split; [discriminate|]. rewrite <- E. f_equal. simpl. lia.
        -- now exists (S k), t.
      * intros [k [t [Hk [Hne E]]]]. destruct k as [|k].
        -- left. simpl in Hk. injection Hk as <-. rewrite E. f_equal. simpl. lia.
        -- right. now exists k, t.
Qed.

Lemma extract_pages_length pages : forall n,
  length (extract_pages n pages) = length (filter has_text pages).
Proof.
  induction pages as [|text rest IH]; intros n; simpl; [reflexivity|].
  destruct text; simpl; now rewrite IH.
Qed.

(** X6: the structurer returns one list of lines for each page that has
    text, and none for the others; the lines of a page all carry its
    1-based position among all the pages of the document, the skipped
    ones counted, and no list of lines is empty. *)
Theorem pages_keep_their_number (pages : list pystr) :
  length (extract_text_with_positions (Some pages))
  = length (filter has_text pages)
  /\ (forall page_data,
        In page_data (extract_text_with_positions (Some pages))
        <-> exists k text,
              nth_error pages k = Some text
              /\ text <> []
              /\ page_data = page_lines (Z.of_nat k + 1) text)
  /\ (forall page_no text,
        page_lines page_no text <> []
        /\ Forall (fun line => line_page line = page_no)
                  (page_lines page_no text)).
Proof.
  split; [apply extract_pages_length|]. split.
  - intros page_data. simpl. apply extract_pages_in.
  - intros page_no text. split;
      [apply page_lines_not_empty | apply page_lines_page].
Qed.

End StructurerPages.

(** ** [detect_table_boundaries] *)

Section DetectorMore.

Import Text Structurer Detector Samples.

Lemma process_line_single tables line :
  (part_count line <= 1)%Z ->
  process_line (tables, None) line = (tables, None).
Proof.
  intros H. unfold process_line.
  destruct (1 <? part_count line)%Z eqn:E; [apply Z.ltb_lt in E; lia | reflexivity].
Qed.

(** X7: when no line has more than one part, no table is detected. *)
Theorem prose_gives_no_table (pages_data : list (list StructuredLine)) :
  Forall (Forall (fun line => (part_count line <= 1)%Z)) pages_data ->
  detect_table_boundaries pages_data = [].
Proof.
  intros H. unfold detect_table_boundaries.
  assert (E : fold_left process_page pages_data ([], None) = ([], None)).
  { induction H as [|page_data rest Hp _ IH]; cbn [fold_left]; [reflexivity|].
    assert (Ep : process_page ([], None) page_data = ([], None)).
    { unfold process_page.
      assert (El : fold_left process_line page_data ([], None) = ([], None)).
      { induction Hp as [|line lines Hl _ IHl]; cbn [fold_left]; [reflexivity|].
        now rewrite (process_line_single [] line Hl). }
      now rewrite El. }
    now rewrite Ep. }
  now rewrite E.
Qed.

Lemma prose_gives_no_table_witness :
  Forall (Forall (fun line => (part_count line <= 1)%Z)) lines_prose
  /\ detect_table_boundaries lines_prose = [].
Proof.
  assert (H : Forall (Forall (fun line => (part_count line <= 1)%Z)) lines_prose).
  { repeat constructor; simpl; lia. }
  split; [exact H | exact (prose_gives_no_table H)].
Defined.

Lemma process_line_used st line n :
  2 * length (fst st) + lines_used (snd st) <= n ->
  2 * length (fst (process_line st line))
  + lines_used (snd (process_line st line)) <= S n.
Proof.
  destruct st as [tables [t|]]; unfold process_line; simpl; intros H.
  - destruct (1 <? part_count line)%Z.
    + destruct (part_count line =? Z.of_nat (length (header t)))%Z; simpl.
      * rewrite length_app. simpl. lia.
      * lia.
    + destruct (has_rows t) eqn:Hr; simpl; [|lia].
      apply has_rows_true in Hr. rewrite length_app. simpl. lia.
  - destruct (1 <? part_count line)%Z; simpl; lia.
Qed.

Lemma end_of_page_used st n :
  2 * length (fst st) + lines_used (snd st) <= n ->
  2 * length (fst (end_of_page st)) + lines_used (snd (end_of_page st)) <= n.
Proof.
  destruct st as [tables [t|]]; simpl; intros H; [|lia].
  destruct (has_rows t) eqn:Hr; simpl; [|lia].
  apply has_rows_true in Hr. rewrite length_app. simpl. lia.
Qed.

Lemma process_page_used page_data : forall st n,
  2 * length (fst st) + lines_used (snd st) <= n ->
  2 * length (fst (process_page st page_data))
  + lines_used (snd (process_page st page_data)) <= n + length page_data.
Proof.
  unfold process_page. intros st n H. apply end_of_page_used.
  revert st n H. induction page_data as [|line lines IH]; intros st n H;
    cbn [fold_left length].
  - lia.
  - replace (n + S (length lines)) with (S n + length lines) by lia.
    apply IH. now apply process_line_used.
Qed.

(** X8: every emitted table stands for at least two lines of the input,
    its header and a row: twice the number of tables is at most the
    number of lines. *)
Theorem tables_use_two_lines (pages_data : list (list StructuredLine)) :
  2 * length (detect_table_boundaries pages_data) <= length (concat pages_data).
Proof.
  unfold detect_table_boundaries.
  assert (H : forall st n,
             2 * length (fst st) + lines_used (snd st) <= n ->
             2 * length (fst (fold_left process_page pages_data st))
             + lines_used (snd (fold_left process_page pages_data st))
             <= n + length (concat pages_data)).
  { induction pages_data as [|page_data rest IH]; intros st n Hn;
      cbn [fold_left concat].
    - simpl length. lia.
    - rewrite length_app, Nat.add_assoc. apply IH. now apply process_page_used. }
  specialize (H ([], None) 0). simpl in H. lia.
Qed.

Lemma process_line_grows st line :
  exists more, fst (process_line st line) = fst st ++ more.
Proof.
  destruct st as [tables [t|]]; unfold process_line; simpl.
  - destruct (1 <? part_count line)%Z.
    + exists []. rewrite app_nil_r.
      now destruct (part_count line =? Z.of_nat (length (header t)))%Z.
    + destruct (has_rows t); [now exists [t] | exists []; now rewrite app_nil_r].
  - exists []. rewrite app_nil_r. now destruct (1 <? part_count line)%Z.
Qed.

Lemma end_of_page_grows st : exists more, fst (end_of_page st) = fst st ++ more.
Proof.
  destruct st as [tables [t|]]; simpl.
  - destruct (has_rows t); [now exists [t] | exists []; now rewrite app_nil_r].
  - exists []. now rewrite app_nil_r.
Qed.

Lemma process_page_grows page_data : forall st,
  exists more, fst (process_page st page_data) = fst st ++ more.
Proof.
  unfold process_page. intros st.
  assert (H : exists more, fst (fold_left process_line page_data st) = fst st ++ more).
  { revert st. induction page_data as [|line lines IH]; intros st; cbn [fold_left].
    - exists []. now rewrite app_nil_r.
    - destruct (IH (process_line st line)) as [m2 E2].
      destruct (process_line_grows st line) as [m1 E1].
      exists (m1 ++ m2). now rewrite E2, E1, app_assoc. }
  destruct H as [m1 E1].
  destruct (end_of_page_grows (fold_left process_line page_data st)) as [m2 E2].
  exists (m1 ++ m2). now rewrite E2, E1, app_assoc.
Qed.

Lemma process_pages_grow pages_data : forall st,
  exists more, fst (fold_left process_page pages_data st) = fst st ++ more.
Proof.
  induction pages_data as [|page_data rest IH]; intros st; cbn [fold_left].
  - exists []. now rewrite app_nil_r.
  - destruct (IH (process_page st page_data)) as [m2 E2].
    destruct (process_page_grows page_data st) as [m1 E1].
    exists (m1 ++ m2). now rewrite E2, E1, app_assoc.
Qed.

(** X9: the tables emitted for the first pages of a document stay as they
    are, at the head of the result, whatever pages follow. *)
Theorem tables_of_first_pages_kept (first_pages more_pages : list (list StructuredLine)) :
  exists more,
    detect_table_boundaries (first_pages ++ more_pages)
    = detect_table_boundaries first_pages ++ more.
Proof.
  unfold detect_table_boundaries. rewrite fold_left_app.
  apply process_pages_grow.
Qed.

End DetectorMore.

(** A property of tables that holds of a fresh header and is kept when a
    row is added holds of every emitted table. *)
Section DetectorInvariant.

Import Text Structurer Detector.

Variable L : StructuredLine -> Prop.
Variable Q : CandidateTable -> Prop.

Hypothesis Q_start : forall line,
  L line -> (1 < part_count line)%Z ->
  Q {| table_page := line_page line;
       header := map clean_text (parts line);
       rows := [] |}.

Hypothesis Q_row : forall t line,
  L line -> Q t ->
  part_count line = Z.of_nat (length (header t)) ->
  Q {| table_page := table_page t;
       header := header t;
       rows := rows t ++ [map clean_text (parts line)] |}.

Lemma process_line_inv st line : L line -> all_tables Q st -> all_tables Q (process_line st line).
Proof.
  intros Hl. destruct st as [tables [t|]]; unfold all_tables, process_line; simpl;
    intros [Ht Hc].
  - destruct (1 <? part_count line)%Z eqn:E1.
    + destruct (part_count line =? Z.of_nat (length (header t)))%Z eqn:E2; simpl.
      * split; [exact Ht|]. apply Z.eqb_eq in E2. now apply Q_row.
      * auto.
    + destruct (has_rows t); simpl; split; auto.
      apply Forall_app. split; [exact Ht | now constructor].
  - destruct (1 <? part_count line)%Z eqn:E1; simpl; split; auto.
    apply Z.ltb_lt in E1. now apply Q_start.
Qed.

Lemma end_of_page_inv st : all_tables Q st -> all_tables Q (end_of_page st).
Proof.
  destruct st as [tables [t|]]; unfold all_tables; simpl; intros [Ht Hc]; [|auto].
  destruct (has_rows t); simpl; split; auto.
  apply Forall_app. split; [exact Ht | now constructor].
Qed.

Lemma detect_keeps pages_data :
  Forall (Forall L) pages_data -> Forall Q (detect_table_boundaries pages_data).
Proof.
  intros H. unfold detect_table_boundaries.
  assert (Hinv : forall st, all_tables Q st ->
                        all_tables Q (fold_left process_page pages_data st)).
  { induction H as [|page_data rest Hp _ IH]; intros st Hst; cbn [fold_left].
    - exact Hst.
    - apply IH. unfold process_page. apply end_of_page_inv.
      clear IH. revert st Hst.
      induction Hp as [|line lines Hl _ IHl]; intros st Hst; cbn [fold_left].
      + exact Hst.
      + apply IHl. now apply process_line_inv. }
  apply (Hinv ([], None)). split; simpl; [constructor | exact I].
Qed.

End DetectorInvariant.

Section DetectorProvenance.

Import Text Structurer Detector.

Lemma lines_in_concat (pages_data : list (list StructuredLine)) :
  Forall (Forall (fun line => In line (concat pages_data))) pages_data.
Proof.
  apply Forall_forall. intros page_data Hp.
  apply Forall_forall. intros line Hl.
  apply in_concat. now exists page_data.
Qed.

(** X10: nothing in an emitted table is made up.  Its header is the
    cleaned parts of an input line with more than one part, whose page
    number it carries; each row is the cleaned parts of an input line
    whose part count is the length of the header; and [clean_text] leaves
    every cell unchanged. *)
Theorem tables_built_from_lines (pages_data : list (list StructuredLine)) :
  Forall (fun t => built_from (concat pages_data) t /\ cells_clean t)
         (detect_table_boundaries pages_data).
Proof.
  apply detect_keeps with (L := fun line => In line (concat pages_data));
    [| |apply lines_in_concat].
  - intros line Hin Hpc. split.
    + split; [now exists line | constructor].
    + split; simpl; [|constructor].
      apply Forall_map, Forall_forall. intros part _. apply clean_text_involutive.
  - intros t line Hin [[Hh Hr] [Hch Hcr]] Hpc. split.
    + split; [exact Hh|]. simpl. apply Forall_app. split; [exact Hr|].
      constructor; [now exists line | constructor].
    + split; [exact Hch|]. simpl. apply Forall_app. split; [exact Hcr|].
      constructor; [|constructor].
      apply Forall_map, Forall_forall. intros part _. apply clean_text_involutive.
Qed.

End DetectorProvenance.

(** ** The detector and the refiner on the lines of the structurer *)

Section Pipeline.

Import Text Structurer Detector Refiner.

Lemma map_fixed {A : Type} (f : A -> A) l :
  Forall (fun x => f x = x) l -> map f l = l.
Proof. induction 1 as [|x l Hx _ IH]; simpl; [reflexivity | now rewrite Hx, IH]. Qed.

Lemma several_parts_solid line n :
  line_ok line ->
  part_count line = Z.of_nat n -> (2 <= n)%nat ->
  map clean_text (parts line) = parts line
  /\ Forall solid (parts line)
  /\ length (parts line) = n.
Proof.
  intros [Hwf [_ [_ Hp]]] Hn Hlen. rewrite Hwf in Hn. apply Nat2Z.inj in Hn.
  destruct Hp as [E|Hs]; [rewrite E in Hn; simpl in Hn; lia|].
  split; [|split; [exact Hs | exact Hn]].
  apply map_fixed. eapply Forall_impl; [|exact Hs]. intros part. apply solid_fixed.
Qed.

Lemma detect_solid pages_data :
  Forall (Forall line_ok) pages_data ->
  Forall table_solid (detect_table_boundaries pages_data).
Proof.
  apply detect_keeps.
  - intros line Hl Hpc.
    destruct (several_parts_solid (n := length (parts line)) Hl) as [E [Hs Hn]].
    + now destruct Hl.
    + destruct Hl as [Hwf _]. rewrite Hwf in Hpc. lia.
    + unfold table_solid. simpl. rewrite E. repeat split; auto.
      destruct Hl as [Hwf _]. rewrite Hwf in Hpc. lia.
  - intros t line Hl [Hlen [Hh Hr]] Hpc.
    destruct (several_parts_solid Hl Hpc Hlen) as [E [Hs Hn]].
    unfold table_solid. simpl. rewrite E. repeat split; auto.
    apply Forall_app. split; [exact Hr | now constructor].
Qed.

Lemma line_ok_well_formed pages_data :
  Forall (Forall line_ok) pages_data -> Forall (Forall well_formed) pages_data.
Proof.
  intros H. eapply Forall_impl; [|exact H]. intros page_data Hp.
  eapply Forall_impl; [|exact Hp]. now intros line [Hwf _].
Qed.

Lemma detect_extract_solid reader :
  Forall (fun t => emitted_ok t /\ table_solid t)
         (detect_table_boundaries (extract_text_with_positions reader)).
Proof.
  pose proof (extract_lines_ok reader) as Hok.
  apply Forall_forall. intros t Hin. split.
  - pose proof (detect_emitted_ok (line_ok_well_formed Hok)) as H.
    rewrite Forall_forall in H. now apply H.
  - pose proof (detect_solid Hok) as H.
    rewrite Forall_forall in H. now apply H.
Qed.

(** X11: the tables detected on the lines of the structurer have at least
    two columns and at least one row, rows of the width of the header, and
    no cell that is empty, that starts or ends with whitespace, or that
    holds a null character or a character above [0x7F]. *)
Theorem pipeline_tables_solid (reader : option (list pystr)) :
  Forall (fun t => emitted_ok t /\ table_solid t)
         (detect_table_boundaries (extract_text_with_positions reader)).
Proof. apply detect_extract_solid. Qed.

Lemma widest_all rows n :
  rows <> [] -> Forall (fun r : list pystr => length r = n) rows ->
  widest rows = n.
Proof.
  intros Hne H. induction H as [|r rows Hr Hrows IH]; [congruence|].
  simpl. destruct rows as [|r' rows'].
  - simpl. lia.
  - rewrite IH by discriminate. lia.
Qed.

Lemma pad_exact r : pad (length r) r = map Str r.
Proof. unfold pad. now rewrite Nat.sub_diag, app_nil_r. Qed.

Lemma make_frame_exact rows header :
  rows <> [] -> Forall (fun r => length r = length header) rows ->
  make_frame rows header
  = Some {| columns := header; values := map (map Str) rows |}.
Proof.
  intros Hne H. unfold make_frame. destruct rows as [|r0 rows']; [congruence|].
  rewrite (widest_all Hne H), Nat.eqb_refl. do 2 f_equal.
  apply map_ext_in. intros r Hin. rewrite Forall_forall in H.
  rewrite <- (H r Hin). apply pad_exact.
Qed.

Lemma filter_all {A : Type} (f : A -> bool) l :
  Forall (fun x => f x = true) l -> filter f l = l.
Proof. induction 1 as [|x l Hx _ IH]; simpl; [reflexivity | now rewrite Hx, IH]. Qed.

Lemma select_all {A : Type} (l : list A) :
  select (repeat true (length l)) l = l.
Proof. induction l as [|x l IH]; simpl; [reflexivity | now rewrite IH]. Qed.

Lemma map_const {A B : Type} (f : A -> B) b l :
  Forall (fun x => f x = b) l -> map f l = repeat b (length l).
Proof. induction 1 as [|x l Hx _ IH]; simpl; [reflexivity | now rewrite Hx, IH]. Qed.

Lemma present_row (r : list pystr) :
  r <> [] -> existsb is_present (map Str r) = true.
Proof. destruct r; [congruence | reflexivity]. Qed.

Lemma present_column j (r : list pystr) (vals : list (list cell)) :
  j < length r -> existsb is_present (column j (map Str r :: vals)) = true.
Proof.
  intros Hj. unfold column. simpl.
  rewrite (nth_indep _ NaN (Str [])) by now rewrite length_map.
  now rewrite (map_nth Str).
Qed.

(** On a table with rows of the width of its header and cells with
    content, the refiner has nothing to drop and nothing to clean. *)
Lemma refine_table_solid t :
  emitted_ok t -> table_solid t -> refine_table t = Accepted (as_refined t).
Proof.
  intros [Hrows Hmatch] [Hlen [Hh Hr]].
  destruct t as [page header rows]. simpl in *.
  assert (Hne : rows <> []) by (destruct rows; [simpl in Hrows; lia | discriminate]).
  unfold refine_table. cbn [Detector.rows Detector.header table_page].
  rewrite (@make_frame_exact rows header Hne Hmatch).
  set (vals := map (map Str) rows).
  assert (E1 : replace_empty {| columns := header; values := vals |}
               = {| columns := header; values := vals |}).
  { unfold replace_empty. cbn [columns values]. f_equal. unfold vals.
    rewrite map_map. apply map_ext_in. intros r Hin.
    rewrite map_map. apply map_ext_in. intros s Hs.
    rewrite Forall_forall in Hr. specialize (Hr r Hin).
    rewrite Forall_forall in Hr. destruct (Hr s Hs) as [Hsne _].
    destruct s; [congruence | reflexivity]. }
  assert (E2 : dropna_rows {| columns := header; values := vals |}
               = {| columns := header; values := vals |}).
  { unfold dropna_rows. cbn [columns values]. f_equal. apply filter_all.
    unfold vals. apply Forall_map, Forall_forall. intros r Hin.
    apply present_row. rewrite Forall_forall in Hmatch.
    specialize (Hmatch r Hin). destruct r; [simpl in Hmatch; lia | discriminate]. }
  assert (E3 : dropna_columns {| columns := header; values := vals |}
               = {| columns := header; values := vals |}).
  { unfold dropna_columns. cbn [columns values].
    assert (Em : map (fun j => existsb is_present (column j vals))
                     (seq 0 (length header))
                 = repeat true (length header)).
    { replace (repeat true (length header))
        with (repeat true (length (seq 0 (length header))))
        by now rewrite length_seq.
      apply map_const.
      apply Forall_forall. intros j Hj. apply in_seq in Hj.
      unfold vals. destruct rows as [|r0 rows']; [congruence|].
      simpl map. apply present_column.
      apply Forall_inv in Hmatch. lia. }
    rewrite Em. f_equal; [apply select_all|].
    rewrite <- (map_id vals) at 2. apply map_ext_in. intros v Hv.
    unfold vals in Hv. apply in_map_iff in Hv as [r [<- Hin]].
    rewrite Forall_forall in Hmatch. rewrite <- (Hmatch r Hin), <- (length_map Str r).
    apply select_all. }
  assert (E4 : applymap_clean {| columns := header; values := vals |}
               = {| columns := header; values := vals |}).
  { unfold applymap_clean. cbn [columns values]. f_equal. unfold vals.
    rewrite map_map. apply map_ext_in. intros r Hin.
    rewrite map_map. apply map_ext_in. intros s Hs.
    rewrite Forall_forall in Hr. specialize (Hr r Hin).
    rewrite Forall_forall in Hr. now rewrite (solid_fixed (Hr s Hs)). }
  rewrite E1, E2, E3, E4. unfold empty. cbn [columns values].
  unfold vals. rewrite length_map.
  destruct rows as [|r0 rows']; [congruence|].
  destruct header as [|h0 [|h1 header']]; simpl in Hlen; try lia.
  reflexivity.
Qed.

Lemma refine_tables_solid tables :
  Forall (fun t => emitted_ok t /\ table_solid t) tables ->
  refine_tables tables = map as_refined tables.
Proof.
  unfold refine_tables. induction 1 as [|t tables [Ho Hs] _ IH]; simpl.
  - reflexivity.
  - now rewrite (refine_table_solid Ho Hs), IH.
Qed.

(** X12: in the pipeline the refiner never drops a table, a row or a
    column and never changes a cell: the tables [process_pdf] returns are
    the detected tables as they are, in the same order. *)
Theorem process_pdf_keeps_detected (reader : option (list pystr)) :
  Driver.process_pdf reader
  = map as_refined
        (detect_table_boundaries (extract_text_with_positions reader)).
Proof.
  unfold Driver.process_pdf.
  pose proof (detect_extract_solid reader) as H.
  destruct (extract_text_with_positions reader) as [|page_data rest] eqn:E.
  - reflexivity.
  - now apply refine_tables_solid.
Qed.

End Pipeline.

(** ** [refine_tables] on any candidates *)

Section RefinerMore.

Import Text Detector Refiner.

Lemma select_incl {A : Type} (mask : list bool) : forall l : list A,
  incl (select mask l) l.
Proof.
  induction mask as [|m mask IH]; intros [|x l]; simpl;
    try (intros y Hy; now destruct Hy).
  destruct m.
  - intros y [<-|Hy]; [now left | right; now apply IH].
  - intros y Hy. right. now apply IH.
Qed.

Lemma select_shorter {A : Type} (mask : list bool) : forall l : list A,
  length (select mask l) <= length l.
Proof.
  induction mask as [|m mask IH]; intros [|x l]; simpl; try lia.
  specialize (IH l). destruct m; simpl; lia.
Qed.

Lemma make_frame_shape rows header df :
  make_frame rows header = Some df ->
  columns df = header /\ length (values df) = length rows.
Proof.
  unfold make_frame. destruct rows as [|r0 rows'].
  - intros [= <-]. split; reflexivity.
  - destruct (widest (r0 :: rows') =? length header); [|discriminate].
    intros [= <-]. cbn [columns values]. split; [reflexivity|].
    exact (length_map (pad (widest (r0 :: rows'))) (r0 :: rows')).
Qed.

Lemma refine_table_from t r : refine_table t = Accepted r -> refined_from t r.
Proof.
  unfold refine_table.
  destruct (make_frame (rows t) (header t)) as [df0|] eqn:E; [|discriminate].
  apply make_frame_shape in E as [Ec Ev].
  destruct (_ && _); [|discriminate]. intros [= <-].
  unfold refined_from. cbn [refined_page data]. split; [reflexivity|].
  unfold applymap_clean, dropna_columns, dropna_rows, replace_empty.
  cbn [columns values]. rewrite Ec. split; [apply select_incl|].
  split; [apply select_shorter|]. split.
  - rewrite !length_map, <- Ev.
    etransitivity; [apply filter_length_le | now rewrite length_map].
  - apply Forall_map, Forall_forall. intros row _.
    apply Forall_map, Forall_forall. intros [|s] _; simpl; [exact I|].
    apply clean_text_involutive.
Qed.

(** X13: whatever the candidates, the refiner returns at most one table
    for each, in their order; a refined table carries the page of its
    candidate, its column names are taken from the header of the
    candidate, it has no more columns and no more rows than the candidate,
    and [clean_text] leaves each of its string cells unchanged. *)
Theorem refined_tables_from_candidates (raw_tables : list CandidateTable) :
  length (refine_tables raw_tables) <= length raw_tables
  /\ Forall (fun r => exists t, In t raw_tables /\ refined_from t r)
            (refine_tables raw_tables)
  /\ (forall first_tables more_tables,
        refine_tables (first_tables ++ more_tables)
        = refine_tables first_tables ++ refine_tables more_tables).
Proof.
  split; [|split].
  - unfold refine_tables. induction raw_tables as [|t ts IH]; simpl; [lia|].
    rewrite length_app. destruct (refine_table t); simpl; lia.
  - apply Forall_forall. intros r Hin. unfold refine_tables in Hin.
    apply in_flat_map in Hin as [t [Ht Hr]]. exists t. split; [exact Ht|].
    destruct (refine_table t) as [| |r'] eqn:E; simpl in Hr; try tauto.
    destruct Hr as [<-|[]]. now apply refine_table_from.
  - intros first_tables more_tables. unfold refine_tables. apply flat_map_app.
Qed.

End RefinerMore.

(** ** [clean_sheet_name] and the sheet names *)

Section SheetNameFacts.

Import Text Refiner Exporter.

Lemma clean_sheet_name_fixed (invalid_chars name : pystr) :
  length name <= 31 -> Forall (fun c => ~ In c invalid_chars) name ->
  clean_sheet_name invalid_chars name = name.
Proof.
  intros Hlen Hc. rewrite clean_sheet_name_filter, filter_all.
  - now apply firstn_all2.
  - eapply Forall_impl; [|exact Hc]. intros c. apply not_invalid_allowed.
Qed.

(** X14: for whatever characters [invalid_chars] holds and for every
    name, lines 148 to 151 return the first 31 characters of the name
    that are not among them: the characters are taken out before the name
    is cut.  The result has at most 31 characters and none of them,
    applying the function again changes nothing, and the names it leaves
    unchanged are exactly those of at most 31 characters without any of
    them. *)
Theorem clean_sheet_name_spec (invalid_chars name : pystr) :
  clean_sheet_name invalid_chars name
  = firstn 31 (filter (allowed invalid_chars) name)
  /\ length (clean_sheet_name invalid_chars name) <= 31
  /\ Forall (fun c => ~ In c invalid_chars) (clean_sheet_name invalid_chars name)
  /\ clean_sheet_name invalid_chars (clean_sheet_name invalid_chars name)
     = clean_sheet_name invalid_chars name
  /\ (clean_sheet_name invalid_chars name = name
      <-> length name <= 31 /\ Forall (fun c => ~ In c invalid_chars) name).
Proof.
  destruct (clean_sheet_name_valid invalid_chars name) as [Hlen Hc].
  split; [apply clean_sheet_name_filter|].
  split; [exact Hlen|]. split; [exact Hc|]. split.
  - now apply clean_sheet_name_fixed.
  - split.
    + intros E. rewrite <- E. now split.
    + intros [Hl Hn]. now apply clean_sheet_name_fixed.
Qed.

Lemma py_injective s1 s2 : py s1 = py s2 -> s1 = s2.
Proof.
  revert s2. induction s1 as [|a s1 IH]; intros [|b s2]; simpl;
    try discriminate; [reflexivity|].
  intros [= Ha Hs]. f_equal; [|now apply IH].
  rewrite <- (ascii_N_embedding a), <- (ascii_N_embedding b). now rewrite Ha.
Qed.

Lemma to_int_not_nil z :
  Z.to_int z <> Decimal.Pos Decimal.Nil /\ Z.to_int z <> Decimal.Neg Decimal.Nil.
Proof.
  destruct z as [|p|p]; simpl; split; try discriminate;
    intros [= E]; now apply Unsigned.to_uint_nonnil in E.
Qed.

Lemma str_of_int_injective z1 z2 : str_of_int z1 = str_of_int z2 -> z1 = z2.
Proof.
  unfold str_of_int. intros E. apply py_injective in E.
  apply DecimalZ.to_int_inj.
  destruct (to_int_not_nil z1) as [H1 H1'], (to_int_not_nil z2) as [H2 H2'].
  pose proof (NilZero.isi _ H1 H1') as E1. pose proof (NilZero.isi _ H2 H2') as E2.
  rewrite E in E1. rewrite E1 in E2. now injection E2.
Qed.

Lemma string_of_uint_numeral d :
  Forall (fun c => numeral_char c = true) (py (NilEmpty.string_of_uint d)).
Proof. induction d; simpl; constructor; auto. Qed.

Lemma str_of_int_numeral z :
  Forall (fun c => numeral_char c = true) (str_of_int z).
Proof.
  unfold str_of_int. destruct (Z.to_int z) as [d|d]; simpl.
  - destruct d; try apply string_of_uint_numeral. repeat constructor.
  - constructor; [reflexivity|].
    destruct d; try apply string_of_uint_numeral. repeat constructor.
Qed.

Lemma numeral_char_plain c : numeral_char c = true -> c <> 95%N.
Proof.
  unfold numeral_char. intros H. apply orb_prop in H as [H|H].
  - apply N.eqb_eq in H. subst c. discriminate.
  - apply andb_prop in H as [H1 H2]. apply N.leb_le in H1, H2. lia.
Qed.

(** Reading back a run of characters without underscore up to the first
    underscore. *)
Lemma split_at_underscore a : forall b x y,
  Forall (fun c => c <> 95%N) a -> Forall (fun c => c <> 95%N) b ->
  a ++ 95%N :: x = b ++ 95%N :: y -> a = b /\ x = y.
Proof.
  induction a as [|c a IH]; intros [|d b] x y Ha Hb; simpl; intros E.
  - injection E as E. now split.
  - injection E as E1 E2. apply Forall_inv in Hb. congruence.
  - injection E as E1 E2. apply Forall_inv in Ha. congruence.
  - injection E as E1 E2. apply Forall_inv_tail in Ha, Hb.
    destruct (IH b x y Ha Hb E2) as [-> ->]. now subst d.
Qed.

Lemma page_table_name_injective page1 i1 page2 i2 :
  page_table_name page1 i1 = page_table_name page2 i2 ->
  page1 = page2 /\ i1 = i2.
Proof.
  unfold page_table_name. intros E. apply app_inv_head in E.
  change (py "_Table_") with (95%N :: py "Table_") in E.
  assert (Hu : forall z, Forall (fun c => c <> 95%N) (str_of_int z)).
  { intros z. eapply Forall_impl; [|apply str_of_int_numeral].
    intros c Hc. now apply numeral_char_plain in Hc. }
  apply split_at_underscore in E as [Ep Ei]; [|apply Hu|apply Hu].
  apply app_inv_head in Ei.
  apply str_of_int_injective in Ep, Ei. split; [exact Ep | lia].
Qed.

(** X15: the text formatted on line 166, [Page_{page}_Table_{i+1}], tells
    the page and the index apart: two tables get the same text exactly
    when they have the same page and the same index.  The text is made of
    [Page_], the decimal writing of the page, [_Table_] and the decimal
    writing of the index plus one, the two numbers holding digits and a
    sign only. *)
Theorem page_table_names_distinct (page1 page2 : Z) (i1 i2 : nat) :
  (page_table_name page1 i1 = page_table_name page2 i2
   <-> page1 = page2 /\ i1 = i2)
  /\ Forall (fun c => numeral_char c = true) (str_of_int page1)
  /\ Forall (fun c => numeral_char c = true) (str_of_int (Z.of_nat i1 + 1)).
Proof.
  split; [split|].
  - apply page_table_name_injective.
  - now intros [-> ->].
  - split; apply str_of_int_numeral.
Qed.

End SheetNameFacts.

(** ** The rows [to_excel] cleans *)

Section ExportMore.

Import Text Structurer Detector Refiner Exporter.

Lemma detect_cells_clean pages_data :
  Forall cells_clean (detect_table_boundaries pages_data).
Proof.
  apply detect_keeps with (L := fun _ => True).
  - intros line _ _. split; simpl; [|constructor].
    apply Forall_map, Forall_forall. intros part _. apply clean_text_involutive.
  - intros t line _ [Hh Hr] _. split; [exact Hh|]. simpl.
    apply Forall_app. split; [exact Hr|]. constructor; [|constructor].
    apply Forall_map, Forall_forall. intros part _. apply clean_text_involutive.
  - apply Forall_forall. intros page_data _. apply Forall_forall. tauto.
Qed.

Lemma clean_cell_fixed c : cell_clean c -> clean_cell c = c.
Proof. destruct c as [|s]; simpl; [reflexivity | now intros ->]. Qed.

(** X17: on the tables refined from detected ones, the cleaning of lines
    178 to 184 changes nothing: for the row of column names and for every
    row of the table, the [cleaned_row] handed to [ws.append] is the row
    itself. *)
Theorem cleaned_rows_unchanged (pages_data : list (list StructuredLine)) :
  Forall (fun r => Forall (fun row => clean_row row = row)
                          (dataframe_to_rows (data r)))
         (refine_tables (detect_table_boundaries pages_data)).
Proof.
  apply Forall_forall. intros r Hin. unfold refine_tables in Hin.
  apply in_flat_map in Hin as [t [Ht Hr]].
  destruct (refine_table t) as [| |r'] eqn:E; simpl in Hr; try tauto.
  destruct Hr as [<-|[]].
  apply refine_table_from in E as [_ [Hincl [_ [_ Hv]]]].
  pose proof (detect_cells_clean pages_data) as Hc.
  rewrite Forall_forall in Hc. destruct (Hc t Ht) as [Hh _].
  unfold dataframe_to_rows, clean_row. constructor.
  - rewrite map_map. apply map_ext_in. intros name Hn. simpl.
    rewrite Forall_forall in Hh. now rewrite (Hh name (Hincl name Hn)).
  - eapply Forall_impl; [|exact Hv]. intros row Hrow.
    apply map_fixed. eapply Forall_impl; [|exact Hrow]. apply clean_cell_fixed.
Qed.

End ExportMore.

(** ** [process_pdf] and [process_pdf_files] *)

Section DriverMore.

Import Text Structurer Detector Refiner Exporter Driver Samples.

Variable output_path_of : pystr -> pystr.

Lemma extract_pages_no_text pages : forall n,
  Forall (fun text => text = []) pages -> extract_pages n pages = [].
Proof.
  induction pages as [|text rest IH]; intros n H; simpl; [reflexivity|].
  apply Forall_inv in H as Ht. apply Forall_inv_tail in H. subst text.
  now apply IH.
Qed.

(** X18: a document none of whose pages has text gives no table. *)
Theorem no_text_no_table (pages : list pystr) :
  Forall (fun text => text = []) pages ->
  extract_text_with_positions (Some pages) = []
  /\ process_pdf (Some pages) = [].
Proof.
  intros H. unfold process_pdf. simpl.
  rewrite (extract_pages_no_text 0 H). now split.
Qed.

Lemma no_text_no_table_witness :
  Forall (fun text => text = []) pages_without_text
  /\ extract_text_with_positions (Some pages_without_text) = []
  /\ process_pdf (Some pages_without_text) = [].
Proof.
  assert (H : Forall (fun text : pystr => text = []) pages_without_text)
    by (repeat constructor).
  split; [exact H | exact (no_text_no_table H)].
Defined.

Lemma process_file_not_pdf st doc :
  is_pdf (filename doc) = false -> process_file output_path_of st doc = st.
Proof. intros H. destruct st as [n fs]. unfold process_file. now rewrite H. Qed.

(** X19: the driver passes over the files whose name does not end in
    [.pdf], whatever the case of the letters: a run on a folder does what
    a run on its PDF files alone does, and it counts at most as many
    documents as there are PDF files. *)
Theorem only_pdf_files_processed (input_exists : bool)
        (docs : list Document) (fs : files) :
  process_pdf_files output_path_of input_exists docs fs
  = process_pdf_files output_path_of input_exists
                      (filter (fun doc => is_pdf (filename doc)) docs) fs
  /\ length (filter (export_succeeds output_path_of) docs)
     <= length (filter (fun doc => is_pdf (filename doc)) docs).
Proof.
  split.
  - unfold process_pdf_files. destruct input_exists; [|reflexivity].
    assert (E : forall st,
               fold_left (process_file output_path_of) docs st
               = fold_left (process_file output_path_of)
                           (filter (fun doc => is_pdf (filename doc)) docs) st).
    { induction docs as [|doc rest IH]; intros st; cbn [fold_left filter].
      - reflexivity.
      - destruct (is_pdf (filename doc)) eqn:Ep; cbn [fold_left].
        + apply IH.
        + rewrite (process_file_not_pdf st doc Ep). apply IH. }
    now rewrite E.
  - induction docs as [|doc rest IH]; simpl; [lia|].
    unfold export_succeeds at 1.
    destruct (is_pdf (filename doc)); simpl; [|exact IH].
    destruct (fst _); simpl; lia.
Qed.

(** X20: whether a PDF file is counted depends on two things only: that
    the detector finds a table in it and that its workbook can be saved.
    The refiner never turns a document with detected tables into one
    without tables. *)
Theorem counted_iff_detected (doc : Document) :
  export_succeeds output_path_of doc
  = is_pdf (filename doc)
    && (0 <? length (detect_table_boundaries
                       (extract_text_with_positions (reader doc))))
    && save_ok doc.
Proof.
  unfold export_succeeds. rewrite <- andb_assoc. f_equal.
  assert (E : process_pdf (reader doc)
              = map as_refined
                    (detect_table_boundaries
                       (extract_text_with_positions (reader doc)))).
  { unfold process_pdf.
    pose proof (detect_extract_solid (reader doc)) as H.
    destruct (extract_text_with_positions (reader doc)); [reflexivity|].
    now apply refine_tables_solid. }
  rewrite E.
  destruct (detect_table_boundaries (extract_text_with_positions (reader doc)));
    simpl; [reflexivity | now destruct (save_ok doc)].
Qed.

End DriverMore.

Section DetectorBlocks.

Import Text Structurer Detector Samples.

Lemma rows_appended row_lines : forall tables t,
  Forall (fun line => (1 < part_count line)%Z
                      /\ part_count line = Z.of_nat (length (header t)))
         row_lines ->
  fold_left process_line row_lines (tables, Some t)
  = (tables,
     Some {| table_page := table_page t;
             header := header t;
             rows := rows t
                       ++ map (fun line => map clean_text (parts line)) row_lines |}).
Proof.
  induction row_lines as [|line lines IH]; intros tables t H; cbn [fold_left map].
  - rewrite app_nil_r. now destruct t.
  - pose proof (Forall_inv_tail H) as Hl. apply Forall_inv in H as [H1 H2].
    assert (E : process_line (tables, Some t) line
                = (tables,
                   Some {| table_page := table_page t;
                           header := header t;
                           rows := rows t ++ [map clean_text (parts line)] |})).
    { unfold process_line. apply Z.ltb_lt in H1. rewrite H1.
      apply Z.eqb_eq in H2. now rewrite H2. }
    rewrite E, IH by exact Hl. cbn [table_page header rows].
    now rewrite <- app_assoc.
Qed.

(** X21: a page made of a line of several parts followed by one or more
    lines with the same number of parts gives exactly one table: the
    first line is its header, the others are its rows in order, and it
    carries the page of the first line. *)
Theorem block_gives_one_table (head_line : StructuredLine)
        (row_lines : list StructuredLine) :
  well_formed head_line ->
  (1 < part_count head_line)%Z ->
  row_lines <> [] ->
  Forall (fun line => part_count line = part_count head_line) row_lines ->
  detect_table_boundaries [head_line :: row_lines]
  = [table_of head_line row_lines].
Proof.
  intros Hwf Hpc Hne Hrows. unfold detect_table_boundaries, process_page.
  cbn [fold_left].
  assert (E0 : process_line ([], None) head_line
               = ([], Some (table_of head_line []))).
  { unfold process_line. apply Z.ltb_lt in Hpc. now rewrite Hpc. }
  rewrite E0, rows_appended.
  - destruct row_lines as [|l ls]; [congruence | reflexivity].
  - eapply Forall_impl; [|exact Hrows]. intros line E. cbv beta.
    cbn [table_of header]. rewrite length_map, <- Hwf, E. split; [exact Hpc | reflexivity].
Qed.

Lemma block_gives_one_table_witness :
  well_formed (line_of 1 (py "a  b") [py "a"; py "b"])
  /\ (1 < part_count (line_of 1 (py "a  b") [py "a"; py "b"]))%Z
  /\ [line_of 1 (py "c  d") [py "c"; py "d"]] <> []
  /\ Forall (fun line => part_count line
                         = part_count (line_of 1 (py "a  b") [py "a"; py "b"]))
            [line_of 1 (py "c  d") [py "c"; py "d"]]
  /\ detect_table_boundaries lines_ab_cd
     = [table_of (line_of 1 (py "a  b") [py "a"; py "b"])
                 [line_of 1 (py "c  d") [py "c"; py "d"]]].
Proof.
  assert (H1 : well_formed (line_of 1 (py "a  b") [py "a"; py "b"]))
    by reflexivity.
  assert (H2 : (1 < part_count (line_of 1 (py "a  b") [py "a"; py "b"]))%Z)
    by reflexivity.
  assert (H3 : [line_of 1 (py "c  d") [py "c"; py "d"]] <> [])
    by discriminate.
  assert (H4 : Forall (fun line => part_count line
                         = part_count (line_of 1 (py "a  b") [py "a"; py "b"]))
                      [line_of 1 (py "c  d") [py "c"; py "d"]])
    by (repeat constructor).
  split; [exact H1|]. split; [exact H2|]. split; [exact H3|]. split; [exact H4|].
  exact (block_gives_one_table H1 H2 H3 H4).
Defined.

End DetectorBlocks.
